(** * QA chatbot client: session and query lifecycle

    A shallow embedding of the React component [App] (App.js): its state
    hooks, its event handlers ([selectVehicle], [changeVehicle], [ask],
    [handleKeyPress], [fetchVehicles]) and the continuations of its two
    asynchronous functions, run by a single-threaded event loop.

    Handlers are embedded as the list of primitive effects they perform, in
    program order; an interpreter applies the effects to the world (hook
    state, suspended async functions, issued requests, console).  The
    setters take effect in the order they are called; React commits them
    together when the synchronous section ends, before the next event.

    Of the rendering only this is embedded: which controls a screen offers,
    their [disabled] attributes, the spinner text and the values handed to
    [marked].  Left out: the two handlers that touch no hook
    ([handleManualUpload], [openOfficialManual]) and what [marked] does with
    its argument.  A render that throws (a catalog value without [map] or
    [includes], [marked] on a content that is not a string) takes the
    component down; the event loop here goes on, so what is stated about a
    world after such a render is about the hooks only. *)

From Stdlib Require Import List String Ascii Bool NArith ZArith Lia DecimalString.
Import ListNotations.
Open Scope string_scope.
Set Warnings "-register-all".

(** ** JavaScript values *)

(** The values that flow through the component: what [JSON.parse] builds,
    plus [undefined].  Numbers are kept as integers: the component never
    computes with them, it only tests them for truthiness and prints them.
    The printed form is JavaScript's for integers a double holds exactly
    and prints in full (up to 2^53 in absolute value); beyond that
    JavaScript rounds, and from 10^21 on prints an exponent, which is not
    modelled.  Text is UTF-8. *)
Inductive jsval : Type :=
| JUndefined
| JNull
| JBool (b : bool)
| JNum (z : Z)
| JStr (s : string)
| JArr (items : list jsval)
| JObj (fields : list (string * jsval)).

Module JS.

(** ToBoolean: the falsy values are undefined, null, false, 0 and the
    empty string. *)
Definition truthy (v : jsval) : bool :=
  match v with
  | JUndefined | JNull => false
  | JBool b => b
  | JNum z => negb (Z.eqb z 0)
  | JStr s => negb (String.eqb s EmptyString)
  | JArr _ | JObj _ => true
  end.

(** [a || b] *)
Definition or (a b : jsval) : jsval := if truthy a then a else b.

Fixpoint assoc (k : string) (fields : list (string * jsval)) : jsval :=
  match fields with
  | [] => JUndefined
  | (k', v) :: rest => if String.eqb k k' then v else assoc k rest
  end.

(** Property read [v.k] for a data property name [k] that no prototype
    defines ([answer], [sources], [vehicles], [available_vehicles]).
    [None]: the read throws a TypeError (on null and undefined). *)
Definition get (v : jsval) (k : string) : option jsval :=
  match v with
  | JUndefined | JNull => None
  | JObj fields => Some (assoc k fields)
  | JBool _ | JNum _ | JStr _ | JArr _ => Some JUndefined
  end.

(** The message of the TypeError thrown by a property read on null or
    undefined (V8's wording). *)
Definition type_error_message (v : jsval) (k : string) : string :=
  "Cannot read properties of "
    ++ (match v with JNull => "null" | _ => "undefined" end)
    ++ " (reading '" ++ k ++ "')".

Definition string_of_N (n : N) : string :=
  NilZero.string_of_uint (N.to_uint n).

Definition string_of_Z (z : Z) : string :=
  NilZero.string_of_int (Z.to_int z).

Definition join (sep : string) (parts : list string) : string :=
  match parts with
  | [] => EmptyString
  | p :: ps => fold_left (fun acc q => acc ++ sep ++ q) ps p
  end.

(** ToString, as a template literal applies it. *)
Fixpoint to_string (v : jsval) : string :=
  match v with
  | JUndefined => "undefined"
  | JNull => "null"
  | JBool true => "true"
  | JBool false => "false"
  | JNum z => string_of_Z z
  | JStr s => s
  | JArr items =>
      join "," (map (fun x => match x with
                              | JUndefined | JNull => EmptyString
                              | _ => to_string x
                              end) items)
  | JObj _ => "[object Object]"
  end.

(** SameValueZero on the values at hand: primitives compare by value,
    arrays and objects by identity, and two nodes of a parsed JSON tree
    are never the same object. *)
Definition same_value_zero (a b : jsval) : bool :=
  match a, b with
  | JUndefined, JUndefined => true
  | JNull, JNull => true
  | JBool x, JBool y => Bool.eqb x y
  | JNum x, JNum y => Z.eqb x y
  | JStr x, JStr y => String.eqb x y
  | _, _ => false
  end.

Fixpoint contains (needle hay : string) : bool :=
  prefix needle hay ||
  match hay with
  | EmptyString => false
  | String _ rest => contains needle rest
  end.

(** [recv.includes(x)]: Array.prototype.includes on an array,
    String.prototype.includes on a string; [None] when [recv] has no such
    method and the call throws. *)
Definition includes (recv x : jsval) : option bool :=
  match recv with
  | JArr items => Some (existsb (same_value_zero x) items)
  | JStr s => Some (contains (to_string x) s)
  | _ => None
  end.

(** *** String.prototype.trim on UTF-8 text *)

Definition ascii_ws (c : ascii) : bool :=
  let n := nat_of_ascii c in
  ((9 <=? n) && (n <=? 13))%nat || (n =? 32)%nat.

(** U+00A0 *)
Definition ws2 (a b : ascii) : bool :=
  ((nat_of_ascii a =? 194) && (nat_of_ascii b =? 160))%nat.

(** U+1680, U+2000..U+200A, U+2028, U+2029, U+202F, U+205F, U+3000,
    U+FEFF *)
Definition ws3 (a b c : ascii) : bool :=
  let x := nat_of_ascii a in
  let y := nat_of_ascii b in
  let z := nat_of_ascii c in
  (((x =? 225) && (y =? 154) && (z =? 128))
   || ((x =? 226) && (y =? 128)
       && (((128 <=? z) && (z <=? 138)) || (z =? 168) || (z =? 169) || (z =? 175)))
   || ((x =? 226) && (y =? 129) && (z =? 159))
   || ((x =? 227) && (y =? 128) && (z =? 128))
   || ((x =? 239) && (y =? 187) && (z =? 191)))%nat.

Fixpoint trimStart (s : string) : string :=
  match s with
  | EmptyString => s
  | String a r1 =>
      if ascii_ws a then trimStart r1
      else match r1 with
           | EmptyString => s
           | String b r2 =>
               if ws2 a b then trimStart r2
               else match r2 with
                    | EmptyString => s
                    | String c r3 => if ws3 a b c then trimStart r3 else s
                    end
           end
  end.

Fixpoint trimEnd (s : string) : string :=
  match s with
  | EmptyString => s
  | String a r =>
      if String.eqb (trimStart s) EmptyString then EmptyString else String a (trimEnd r)
  end.

Definition trim (s : string) : string := trimEnd (trimStart s).

End JS.

(** ** Component state *)

Inductive MessageType : Type := user | bot.

(** A transcript entry.  [sources] is [JUndefined] where the object literal
    has no such property. *)
Record Message : Type := mkMessage {
  type : MessageType;
  content : jsval;
  timestamp : N;
  sources : jsval
}.

(** The eight [useState] hooks of [App]. *)
Record State : Type := mkState {
  question : string;
  selectedVehicle : jsval;
  availableVehicles : jsval;
  allVehicles : jsval;
  vehicleSelectionStep : bool;
  messages : list Message;
  loading : bool;
  loadingStep : string
}.

Definition defaultVehicles : list string :=
  ["SONATA"; "SANTAFE"; "TUCSON"; "AVANTE"; "GRANDEUR"; "PALISADE"].

Definition initialState : State := {|
  question := EmptyString;
  selectedVehicle := JStr EmptyString;
  availableVehicles := JArr (map JStr defaultVehicles);
  allVehicles := JArr (map JStr defaultVehicles);
  vehicleSelectionStep := true;
  messages := [];
  loading := false;
  loadingStep := EmptyString
|}.

(** ** Effects *)

(** A [fetch] call.  [body] is the object handed to [JSON.stringify]. *)
Record Request : Type := mkRequest {
  url : string;
  method : string;
  headers : list (string * string);
  body : jsval
}.

(** An async function suspended at an [await]. *)
Inductive Task : Type :=
| VehiclesAwaitFetch   (* fetchVehicles, at [await fetch(...)] *)
| VehiclesAwaitJson    (* fetchVehicles, at [await res.json()] *)
| AskAwaitFetch        (* ask, at [await fetch(...)] *)
| AskAwaitJson.        (* ask, at [await res.json()] *)

(** The primitive effects of the handlers.  [AppendMessage m] is the
    functional update [setMessages(prev => [...prev, m])]. *)
Inductive Action : Type :=
| SetQuestion (s : string)
| SetSelectedVehicle (v : jsval)
| SetAvailableVehicles (v : jsval)
| SetAllVehicles (v : jsval)
| SetVehicleSelectionStep (b : bool)
| SetMessages (ms : list Message)
| AppendMessage (m : Message)
| SetLoading (b : bool)
| SetLoadingStep (s : string)
| Fetch (r : Request) (k : Task)
| ReadJson (k : Task)
| ConsoleError (label message : string).

Record World : Type := mkWorld {
  st : State;
  inflight : list Task;
  requests : list Request;
  console : list (string * string)
}.

Definition with_state (f : State -> State) (w : World) : World :=
  {| st := f (st w); inflight := inflight w;
     requests := requests w; console := console w |}.

Definition run_action (w : World) (a : Action) : World :=
  match a with
  | SetQuestion s =>
      with_state (fun x => mkState s (selectedVehicle x) (availableVehicles x)
        (allVehicles x) (vehicleSelectionStep x) (messages x) (loading x)
        (loadingStep x)) w
  | SetSelectedVehicle v =>
      with_state (fun x => mkState (question x) v (availableVehicles x)
        (allVehicles x) (vehicleSelectionStep x) (messages x) (loading x)
        (loadingStep x)) w
  | SetAvailableVehicles v =>
      with_state (fun x => mkState (question x) (selectedVehicle x) v
        (allVehicles x) (vehicleSelectionStep x) (messages x) (loading x)
        (loadingStep x)) w
  | SetAllVehicles v =>
      with_state (fun x => mkState (question x) (selectedVehicle x)
        (availableVehicles x) v (vehicleSelectionStep x) (messages x)
        (loading x) (loadingStep x)) w
  | SetVehicleSelectionStep b =>
      with_state (fun x => mkState (question x) (selectedVehicle x)
        (availableVehicles x) (allVehicles x) b (messages x) (loading x)
        (loadingStep x)) w
  | SetMessages ms =>
      with_state (fun x => mkState (question x) (selectedVehicle x)
        (availableVehicles x) (allVehicles x) (vehicleSelectionStep x) ms
        (loading x) (loadingStep x)) w
  | AppendMessage m =>
      with_state (fun x => mkState (question x) (selectedVehicle x)
        (availableVehicles x) (allVehicles x) (vehicleSelectionStep x)
        (messages x ++ [m]) (loading x) (loadingStep x)) w
  | SetLoading b =>
      with_state (fun x => mkState (question x) (selectedVehicle x)
        (availableVehicles x) (allVehicles x) (vehicleSelectionStep x)
        (messages x) b (loadingStep x)) w
  | SetLoadingStep s =>
      with_state (fun x => mkState (question x) (selectedVehicle x)
        (availableVehicles x) (allVehicles x) (vehicleSelectionStep x)
        (messages x) (loading x) s) w
  | Fetch r k =>
      {| st := st w; inflight := inflight w ++ [k];
         requests := requests w ++ [r]; console := console w |}
  | ReadJson k =>
      {| st := st w; inflight := inflight w ++ [k];
         requests := requests w; console := console w |}
  | ConsoleError label message =>
      {| st := st w; inflight := inflight w; requests := requests w;
         console := console w ++ [(label, message)] |}
  end.

Definition run (w : World) (acts : list Action) : World :=
  fold_left run_action acts w.

(** ** Handlers

    A handler reads the hook values of the render it was created in (its
    argument [s]) and returns its effects in program order.  The state
    setters do not change what the handler itself reads: [ask] still sends
    the question it was called with after it has cleared the draft. *)

Definition welcomeMessage (now : N) (vehicle : jsval) : Message := {|
  type := bot;
  content := JStr ("안녕하세요! **" ++ JS.to_string vehicle
                   ++ "** 매뉴얼 QA 어시스턴트입니다. 차량 관련 궁금한 점을 언제든 물어보세요.");
  timestamp := now;
  sources := JUndefined
|}.

Definition selectVehicle (now : N) (vehicle : jsval) : list Action :=
  [ SetSelectedVehicle vehicle;
    SetVehicleSelectionStep false;
    SetMessages [welcomeMessage now vehicle] ].

Definition changeVehicle : list Action :=
  [ SetVehicleSelectionStep true;
    SetSelectedVehicle (JStr EmptyString);
    SetMessages [];
    SetQuestion EmptyString ].

Definition vehiclesRequest : Request := {|
  url := "http://localhost:8000/vehicles";
  method := "GET";
  headers := [];
  body := JUndefined
|}.

Definition askRequest (q : string) (vehicle : jsval) : Request := {|
  url := "http://localhost:8000/ask";
  method := "POST";
  headers := [("Content-Type", "application/json"); ("Accept", "application/json")];
  body := JObj [("q", JStr q); ("vehicle", vehicle)]
|}.

Definition searchingStep : string := "매뉴얼 검색 중...".
Definition generatingStep : string := "답변 생성 중...".

(** [fetchVehicles], up to its first [await]. *)
Definition fetchVehicles : list Action :=
  [ Fetch vehiclesRequest VehiclesAwaitFetch ].

Definition userMessage (now : N) (q : string) : Message := {|
  type := user;
  content := JStr q;
  timestamp := now;
  sources := JUndefined
|}.

(** [ask], up to its first [await]. *)
Definition ask (now : N) (s : State) : list Action :=
  if negb (JS.truthy (JStr (JS.trim (question s))))
     || negb (JS.truthy (selectedVehicle s))
  then []
  else
    [ AppendMessage (userMessage now (question s));
      SetQuestion EmptyString;
      SetLoading true;
      SetLoadingStep searchingStep;
      Fetch (askRequest (question s) (selectedVehicle s)) AskAwaitFetch ].

Definition handleKeyPress (key : string) (shiftKey : bool) (now : N) (s : State)
  : list Action :=
  if String.eqb key "Enter" && negb shiftKey then ask now s else [].

(** ** Continuations *)

(** How an awaited promise settles: [fetch] rejects or resolves to a
    response with a status; [res.json()] rejects or resolves to the parsed
    body.  A rejection carries the [message] of its error. *)
Inductive Settled : Type :=
| Rejected (message : string)
| Response (status : N)
| Json (data : jsval).

(** [res.ok] *)
Definition ok (status : N) : bool :=
  ((200 <=? status) && (status <=? 299))%N.

Definition errorPrefix : string := "죄송합니다. 오류가 발생했습니다: ".

Definition errorMessage (now : N) (message : string) : Message := {|
  type := bot;
  content := JStr (errorPrefix ++ message);
  timestamp := now;
  sources := JUndefined
|}.

(** The [catch] block of [ask]. *)
Definition ask_catch (now : N) (message : string) : list Action :=
  [ ConsoleError "API 요청 오류:" message;
    AppendMessage (errorMessage now message);
    SetLoading false;
    SetLoadingStep EmptyString ].

Definition botMessage (now : N) (answer srcs : jsval) : Message := {|
  type := bot;
  content := answer;
  timestamp := now;
  sources := JS.or srcs (JArr [])
|}.

(** The rest of [ask]'s [try] block once [res.json()] has resolved. *)
Definition ask_answer (now : N) (data : jsval) : list Action :=
  match JS.get data "answer", JS.get data "sources" with
  | Some answer, Some srcs =>
      [ AppendMessage (botMessage now answer srcs);
        SetLoading false;
        SetLoadingStep EmptyString ]
  | _, _ => ask_catch now (JS.type_error_message data "answer")
  end.

(** The [catch] block of [fetchVehicles]. *)
Definition vehicles_catch (message : string) : list Action :=
  [ ConsoleError "차량 목록 로드 오류:" message ].

Definition vehicles_data (data : jsval) : list Action :=
  match JS.get data "vehicles", JS.get data "available_vehicles" with
  | Some vs, Some avs => [ SetAllVehicles vs; SetAvailableVehicles avs ]
  | _, _ => vehicles_catch (JS.type_error_message data "vehicles")
  end.

(** What a suspended function does when the promise it awaits settles;
    [None] when the promise cannot settle that way. *)
Definition resume (k : Task) (o : Settled) (now : N) : option (list Action) :=
  match k, o with
  | VehiclesAwaitFetch, Rejected e => Some (vehicles_catch e)
  | VehiclesAwaitFetch, Response _ => Some [ ReadJson VehiclesAwaitJson ]
  | VehiclesAwaitJson, Rejected e => Some (vehicles_catch e)
  | VehiclesAwaitJson, Json data => Some (vehicles_data data)
  | AskAwaitFetch, Rejected e => Some (ask_catch now e)
  | AskAwaitFetch, Response status =>
      Some (SetLoadingStep generatingStep ::
            (if negb (ok status)
             then ask_catch now ("HTTP error! status: " ++ JS.string_of_N status)
             else [ ReadJson AskAwaitJson ]))
  | AskAwaitJson, Rejected e => Some (ask_catch now e)
  | AskAwaitJson, Json data => Some (ask_answer now data)
  | _, _ => None
  end.

(** ** The rendered controls and the event loop *)

(** The vehicle cards of the selection screen: each code of [allVehicles]
    with its [isAvailable] flag.  [None]: the render throws. *)
Fixpoint cards_of (available : jsval) (vs : list jsval) : option (list (jsval * bool)) :=
  match vs with
  | [] => Some []
  | v :: rest =>
      match JS.includes available v, cards_of available rest with
      | Some b, Some cs => Some ((v, b) :: cs)
      | _, _ => None
      end
  end.

Definition cards (s : State) : option (list (jsval * bool)) :=
  match allVehicles s with
  | JArr vs => cards_of (availableVehicles s) vs
  | _ => None
  end.

(** [onClick={() => isAvailable && selectVehicle(vehicle)}] *)
Definition cardOnClick (now : N) (vehicle : jsval) (isAvailable : bool)
  : list Action :=
  if isAvailable then selectVehicle now vehicle else [].

Definition quickActions : list string :=
  [ "엔진오일 교환 방법을 알려주세요";
    "타이어 공기압 점검 방법을 알려주세요";
    "배터리 점검은 어떻게 하나요?";
    "정기 점검 주기를 알려주세요" ].

(** [disabled={loading}] on the textarea *)
Definition textareaDisabled (s : State) : bool := loading s.

(** [disabled={loading || !question.trim()}] on the send button *)
Definition sendDisabled (s : State) : bool :=
  loading s || negb (JS.truthy (JStr (JS.trim (question s)))).

Inductive Event : Type :=
| ClickVehicleCard (i : nat) (now : N)
| ClickChangeVehicle
| ChangeQuestion (s : string)
| ClickQuickAction (i : nat)
| KeyPress (key : string) (shiftKey : bool) (now : N)
| ClickSend (now : N)
| Settle (i : nat) (o : Settled) (now : N).

Fixpoint remove_nth {A : Type} (i : nat) (l : list A) : list A :=
  match l, i with
  | [], _ => []
  | _ :: rest, O => rest
  | x :: rest, S j => x :: remove_nth j rest
  end.

Definition drop_task (i : nat) (w : World) : World :=
  {| st := st w; inflight := remove_nth i (inflight w);
     requests := requests w; console := console w |}.

(** One turn of the event loop.  A user event reaches its handler only if
    the current screen offers the control and the control is not disabled
    (a disabled textarea or button receives no key press, input or click);
    the header button and the quick-action buttons are never disabled.
    [Settle i o now] resumes the [i]-th suspended function. *)
Definition step (w : World) (e : Event) : World :=
  let s := st w in
  match e with
  | ClickVehicleCard i now =>
      if vehicleSelectionStep s then
        match cards s with
        | Some cs =>
            match nth_error cs i with
            | Some (v, isAvailable) => run w (cardOnClick now v isAvailable)
            | None => w
            end
        | None => w
        end
      else w
  | ClickChangeVehicle => run w changeVehicle
  | ChangeQuestion q =>
      if vehicleSelectionStep s || textareaDisabled s then w
      else run w [SetQuestion q]
  | ClickQuickAction i =>
      if vehicleSelectionStep s then w
      else match nth_error quickActions i with
           | Some q => run w [SetQuestion q]
           | None => w
           end
  | KeyPress key shiftKey now =>
      if vehicleSelectionStep s || textareaDisabled s then w
      else run w (handleKeyPress key shiftKey now s)
  | ClickSend now =>
      if vehicleSelectionStep s || sendDisabled s then w
      else run w (ask now s)
  | Settle i o now =>
      match nth_error (inflight w) i with
      | Some k =>
          match resume k o now with
          | Some acts => run (drop_task i w) acts
          | None => w
          end
      | None => w
      end
  end.

Definition steps (w : World) (es : list Event) : World := fold_left step es w.

(** The world right after [App] mounts: the effect hook has called
    [fetchVehicles]. *)
Definition mount : World :=
  run {| st := initialState; inflight := []; requests := []; console := [] |}
      fetchVehicles.

Inductive reachable : World -> Prop :=
| reach_mount : reachable mount
| reach_step w e : reachable w -> reachable (step w e).

(** The spec's request phase, read off [loading] and [loadingStep]. *)
Inductive Phase : Type := idle | searching | generating.

Definition phase (s : State) : option Phase :=
  if loading s then
    if String.eqb (loadingStep s) searchingStep then Some searching
    else if String.eqb (loadingStep s) generatingStep then Some generating
    else None
  else if String.eqb (loadingStep s) EmptyString then Some idle else None.

(** Content of the shape the [catch] block of [ask] produces. *)
Definition is_error_content (v : jsval) : bool :=
  match v with
  | JStr s => prefix errorPrefix s
  | _ => false
  end.

(** The effects that touch the network: issuing a request, reading a
    response body. *)
Definition is_network (a : Action) : bool :=
  match a with
  | Fetch _ _ | ReadJson _ => true
  | _ => false
  end.

(** The world once [ask] has run up to its first [await]. *)
Definition submitted (w : World) (now : N) : World := run w (ask now (st w)).

Definition is_ask_task (k : Task) : bool :=
  match k with
  | AskAwaitFetch | AskAwaitJson => true
  | _ => false
  end.

(** Number of /ask round trips that have not completed. *)
Definition asks_in_flight (w : World) : nat :=
  List.length (filter is_ask_task (inflight w)).

(** Number of /ask requests issued so far. *)
Definition is_ask_request (r : Request) : bool :=
  String.eqb (url r) "http://localhost:8000/ask".

Definition asks_issued (w : World) : nat :=
  List.length (filter is_ask_request (requests w)).

(** Events of an ongoing chat: everything but a reset and a card click. *)
Definition chat_event (e : Event) : bool :=
  match e with
  | ClickChangeVehicle | ClickVehicleCard _ _ => false
  | _ => true
  end.

(** What the loading flag and the selection screen say about requests in
    flight: loading is on exactly while one /ask round trip is open, and on
    the selection screen the transcript holds at most the one late result. *)
Definition consistent (w : World) : Prop :=
  asks_in_flight w = (if loading (st w) then 1 else 0)
  /\ (vehicleSelectionStep (st w) = true ->
      List.length (messages (st w)) + asks_in_flight w <= 1).

(** The catalog is the built-in one and each of its six cards, clicked on
    the selection screen, starts a chat for its code. *)
Definition offers_defaults (w : World) : Prop :=
  allVehicles (st w) = JArr (map JStr defaultVehicles)
  /\ availableVehicles (st w) = JArr (map JStr defaultVehicles)
  /\ forall now,
       map (fun i => let w' := step w (ClickVehicleCard i now) in
                     (selectedVehicle (st w'), vehicleSelectionStep (st w'),
                      JS.truthy (selectedVehicle (st w'))))
           (seq 0 6)
       = map (fun v => (JStr v, false, true)) defaultVehicles.

(** ** Transitions *)

(** The ways one turn of the event loop can change the world, with the
    conditions under which each is taken. *)
Inductive transition (w : World) : World -> Prop :=
| t_none : transition w w
| t_select (t : N) (v : jsval) (vs : list jsval) (i : nat) :
    vehicleSelectionStep (st w) = true ->
    allVehicles (st w) = JArr vs ->
    nth_error vs i = Some v ->
    JS.includes (availableVehicles (st w)) v = Some true ->
    transition w (run w (selectVehicle t v))
| t_reset : transition w (run w changeVehicle)
| t_draft (q : string) :
    vehicleSelectionStep (st w) = false ->
    transition w (run w [SetQuestion q])
| t_submit (t : N) :
    vehicleSelectionStep (st w) = false ->
    loading (st w) = false ->
    JS.trim (question (st w)) <> EmptyString ->
    JS.truthy (selectedVehicle (st w)) = true ->
    transition w (submitted w t)
| t_settle (i : nat) (k : Task) (o : Settled) (t : N) (acts : list Action) :
    nth_error (inflight w) i = Some k ->
    resume k o t = Some acts ->
    transition w (run (drop_task i w) acts).

(** Events that neither send nor settle anything: card clicks, the reset,
    typing and the quick-action buttons. *)
Definition local_event (e : Event) : bool :=
  match e with
  | ClickVehicleCard _ _ | ClickChangeVehicle | ChangeQuestion _
  | ClickQuickAction _ => true
  | _ => false
  end.

(** The text beside the spinner of the chat screen:
    [loading && ... {loadingStep || fallback}]; [None] when no spinner is
    shown. *)
Definition loadingFallback : string := "답변을 생성하고 있습니다...".

Definition loadingIndicator (s : State) : option string :=
  if vehicleSelectionStep s then None
  else if loading s then
         Some (if JS.truthy (JStr (loadingStep s)) then loadingStep s
               else loadingFallback)
       else None.

(** The values the chat screen hands to [marked], in order: the content of
    every bot message ([message.type === 'bot'] branch of the transcript);
    the selection screen renders no message. *)
Definition markedCalls (s : State) : list jsval :=
  if vehicleSelectionStep s then []
  else map content
           (filter (fun m => match type m with bot => true | user => false end)
                   (messages s)).

(** ** The connectivity check of index.js

    [fetch(.../health).then(res => res.json()).then(log).catch(error)],
    outside the component: it writes to the console and nothing else. *)

Inductive HealthTask : Type :=
| HealthAwaitFetch
| HealthAwaitJson.

Inductive ConsoleLine : Type :=
| LogLine (label : string) (data : jsval)
| ErrorLine (label message : string).

(** The next stage of the chain, if any, and what is written. *)
Definition health_resume (k : HealthTask) (o : Settled)
  : option (option HealthTask * list ConsoleLine) :=
  match k, o with
  | HealthAwaitFetch, Rejected e => Some (None, [ErrorLine "백엔드 연결 실패:" e])
  | HealthAwaitFetch, Response _ => Some (Some HealthAwaitJson, [])
  | HealthAwaitJson, Rejected e => Some (None, [ErrorLine "백엔드 연결 실패:" e])
  | HealthAwaitJson, Json data => Some (None, [LogLine "백엔드 연결 성공:" data])
  | _, _ => None
  end.

(** The chain driven by a sequence of settlements; a settlement that does
    not fit the pending stage, or comes after the chain has ended, is
    ignored. *)
Fixpoint health_run (k : option HealthTask) (os : list Settled) : list ConsoleLine :=
  match os with
  | [] => []
  | o :: rest =>
      match k with
      | None => []
      | Some stage =>
          match health_resume stage o with
          | Some (next, lines) => (lines ++ health_run next rest)%list
          | None => health_run k rest
          end
      end
  end.

Definition healthCheck (os : list Settled) : list ConsoleLine :=
  health_run (Some HealthAwaitFetch) os.

(** ** Scenarios *)

(** Scenario 1 of the spec: the backend lists SONATA and TUCSON and only
    SONATA is available. *)
Definition sonataOnly : jsval :=
  JObj [ ("vehicles", JArr [JStr "SONATA"; JStr "TUCSON"]);
         ("available_vehicles", JArr [JStr "SONATA"]) ].

Definition loadedSonataOnly : World :=
  steps mount [ Settle 0 (Response 200) 1; Settle 0 (Json sonataOnly) 2 ].

(** Scenario 2: a successful round trip. *)
Definition chattingSonata : World :=
  steps mount [ ClickVehicleCard 0 1; ChangeQuestion "엔진오일 교환 방법은?" ].

(** * Examples *)

Example trim_ex1 : JS.trim "  엔진오일 교환 " = "엔진오일 교환".
Proof. reflexivity. Qed.

Example trim_ex2 :
  JS.trim (String (ascii_of_nat 9) (String (ascii_of_nat 10) " ")) = EmptyString.
Proof. reflexivity. Qed.

Example to_string_ex : JS.to_string (JArr [JNum 1; JNull; JStr "a"]) = "1,,a".
Proof. reflexivity. Qed.

Example status_ex : JS.string_of_N 500 = "500".
Proof. reflexivity. Qed.

Example scenario1_catalog :
  cards (st loadedSonataOnly) = Some [(JStr "SONATA", true); (JStr "TUCSON", false)].
Proof. reflexivity. Qed.

Example scenario1_select :
  let w := step loadedSonataOnly (ClickVehicleCard 0 3) in
  vehicleSelectionStep (st w) = false /\ List.length (messages (st w)) = 1.
Proof. split; reflexivity. Qed.

Example scenario2 :
  let w := steps chattingSonata
             [ ClickSend 2; Settle 1 (Response 200) 3;
               Settle 1 (Json (JObj [("answer", JStr "오일을 교환하세요");
                                     ("sources", JArr [])])) 4 ] in
  map type (messages (st w)) = [bot; user; bot]
  /\ phase (st w) = Some idle
  /\ requests w = [ vehiclesRequest;
                    askRequest "엔진오일 교환 방법은?" (JStr "SONATA") ].
Proof. repeat split; reflexivity. Qed.

(** Scenario 3: HTTP 500. *)
Example scenario3 :
  let w := steps chattingSonata [ ClickSend 2; Settle 1 (Response 500) 3 ] in
  map content (messages (st w))
  = [ content (welcomeMessage 1 (JStr "SONATA"));
      JStr "엔진오일 교환 방법은?";
      JStr (errorPrefix ++ "HTTP error! status: 500") ]
  /\ phase (st w) = Some idle.
Proof. split; reflexivity. Qed.

(** * Basic facts *)

Lemma nth_error_snoc {A : Type} (l : list A) (x : A) :
  nth_error (l ++ [x]) (List.length l) = Some x.
Proof. induction l as [| y l IH]; simpl; auto. Qed.

Lemma remove_nth_snoc {A : Type} (l : list A) (x : A) :
  remove_nth (List.length l) (l ++ [x]) = l.
Proof. induction l as [| y l IH]; simpl; congruence. Qed.

Lemma truthy_trim (q : string) :
  JS.truthy (JStr (JS.trim q)) = true <-> JS.trim q <> EmptyString.
Proof.
  simpl. rewrite negb_true_iff. apply String.eqb_neq.
Qed.

(** [ask] past its guard. *)
Lemma ask_accepts (now : N) (s : State) :
  JS.trim (question s) <> EmptyString ->
  JS.truthy (selectedVehicle s) = true ->
  ask now s =
    [ AppendMessage (userMessage now (question s));
      SetQuestion EmptyString;
      SetLoading true;
      SetLoadingStep searchingStep;
      Fetch (askRequest (question s) (selectedVehicle s)) AskAwaitFetch ].
Proof.
  intros Hq Hv. unfold ask.
  apply truthy_trim in Hq. rewrite Hq, Hv. reflexivity.
Qed.

(** [ask] stopped by its guard. *)
Lemma ask_rejects (now : N) (s : State) :
  JS.trim (question s) = EmptyString \/ JS.truthy (selectedVehicle s) = false ->
  ask now s = [].
Proof.
  intros [Hq | Hv]; unfold ask.
  - rewrite Hq. reflexivity.
  - rewrite Hv, orb_true_r. reflexivity.
Qed.

Lemma world_eta (w : World) :
  {| st := st w; inflight := inflight w;
     requests := requests w; console := console w |} = w.
Proof. destruct w; reflexivity. Qed.

Lemma cards_of_nth (av : jsval) (vs : list jsval) :
  forall cs i v,
    cards_of av vs = Some cs ->
    nth_error vs i = Some v ->
    exists b, JS.includes av v = Some b /\ nth_error cs i = Some (v, b).
Proof.
  induction vs as [| v0 vs IH]; intros cs i v Hcs Hnth.
  - destruct i; discriminate.
  - simpl in Hcs.
    destruct (JS.includes av v0) as [b0 |] eqn:Hinc; [| discriminate].
    destruct (cards_of av vs) as [cs0 |] eqn:Hrest; [| discriminate].
    injection Hcs as <-.
    destruct i as [| j]; simpl in *.
    + injection Hnth as <-. eauto.
    + eapply IH; eauto.
Qed.

Lemma cards_of_length (av : jsval) (vs : list jsval) :
  forall cs, cards_of av vs = Some cs -> List.length cs = List.length vs.
Proof.
  induction vs as [| v0 vs IH]; intros cs Hcs; simpl in Hcs.
  - injection Hcs as <-. reflexivity.
  - destruct (JS.includes av v0); [| discriminate].
    destruct (cards_of av vs); [| discriminate].
    injection Hcs as <-. simpl. f_equal. auto.
Qed.

(** * Vehicle selection and reset *)

(** C6. In every world, on either screen, [changeVehicle] leaves the
    component on the selection screen with [selectedVehicle] reset to the
    empty (falsy) string, [messages] empty and the draft question empty. *)
Theorem changeVehicle_resets (w : World) :
  let w' := step w ClickChangeVehicle in
  st w' = st (run w changeVehicle)
  /\ vehicleSelectionStep (st w') = true
  /\ selectedVehicle (st w') = JStr EmptyString
  /\ JS.truthy (selectedVehicle (st w')) = false
  /\ messages (st w') = []
  /\ question (st w') = EmptyString.
Proof. repeat split. Qed.

(** What [changeVehicle] does not touch: the catalog, the loading flags, the
    suspended requests. *)
Lemma changeVehicle_keeps (w : World) :
  let w' := step w ClickChangeVehicle in
  inflight w' = inflight w
  /\ requests w' = requests w
  /\ loading (st w') = loading (st w)
  /\ loadingStep (st w') = loadingStep (st w)
  /\ allVehicles (st w') = allVehicles (st w)
  /\ availableVehicles (st w') = availableVehicles (st w).
Proof. repeat split. Qed.

(** [selectVehicle] has no guard of its own. *)
Lemma selectVehicle_unconditional (w : World) (now : N) (vehicle : jsval) :
  let w' := run w (selectVehicle now vehicle) in
  vehicleSelectionStep (st w') = false
  /\ selectedVehicle (st w') = vehicle
  /\ messages (st w') = [welcomeMessage now vehicle].
Proof. repeat split. Qed.

(** C5, as stated, fails: on the freshly mounted component GENESIS is not
    in the available set, yet [selectVehicle] called with it leaves the
    selection screen and seeds a welcome message. *)
Lemma selectVehicle_unavailable_changes_state :
  JS.includes (availableVehicles (st mount)) (JStr "GENESIS") = Some false
  /\ vehicleSelectionStep (st mount) = true
  /\ vehicleSelectionStep (st (run mount (selectVehicle 7 (JStr "GENESIS")))) = false
  /\ selectedVehicle (st (run mount (selectVehicle 7 (JStr "GENESIS")))) = JStr "GENESIS"
  /\ messages (st (run mount (selectVehicle 7 (JStr "GENESIS"))))
     = [welcomeMessage 7 (JStr "GENESIS")].
Proof. repeat split. Qed.

(** C5, amended. The availability gate is the card's click handler: a click
    on the card of a code that [availableVehicles] does not include changes
    nothing, and a click where no card is changes nothing either. *)
Theorem card_gate (w : World) (i : nat) (now : N) (vs : list jsval) :
  allVehicles (st w) = JArr vs ->
  (forall v, nth_error vs i = Some v ->
             JS.includes (availableVehicles (st w)) v = Some false) ->
  step w (ClickVehicleCard i now) = w.
Proof.
  intros Hall Hgate. unfold step, cards. rewrite Hall.
  destruct (vehicleSelectionStep (st w)); [| reflexivity].
  destruct (cards_of (availableVehicles (st w)) vs) as [cs |] eqn:Hcs;
    [| reflexivity].
  destruct (nth_error vs i) as [v |] eqn:Hv.
  - destruct (cards_of_nth _ _ _ _ _ Hcs Hv) as [b [Hinc Hnth]].
    rewrite Hnth. rewrite (Hgate v eq_refl) in Hinc.
    injection Hinc as <-. reflexivity.
  - apply nth_error_None in Hv.
    rewrite <- (cards_of_length _ _ _ Hcs) in Hv.
    apply nth_error_None in Hv. rewrite Hv. reflexivity.
Qed.

Lemma card_gate_witness :
  step loadedSonataOnly (ClickVehicleCard 1 3) = loadedSonataOnly.
Proof.
  apply (card_gate loadedSonataOnly 1 3 [JStr "SONATA"; JStr "TUCSON"]).
  - reflexivity.
  - intros v Hv. injection Hv as <-. reflexivity.
Defined.

(** * Catalog loading *)

(** C9. When the /vehicles fetch rejects, or its body cannot be parsed, the
    hook state is left as it was (both catalog lists, and nothing is shown
    in the transcript), the failure is written to the console, and no new
    request is issued. *)
Theorem fetchVehicles_failure (w : World) (i : nat) (k : Task) (e : string) (now : N) :
  nth_error (inflight w) i = Some k ->
  k = VehiclesAwaitFetch \/ k = VehiclesAwaitJson ->
  let w' := step w (Settle i (Rejected e) now) in
  allVehicles (st w') = allVehicles (st w)
  /\ availableVehicles (st w') = availableVehicles (st w)
  /\ st w' = st w
  /\ console w' = (console w ++ [("차량 목록 로드 오류:", e)])%list
  /\ requests w' = requests w
  /\ inflight w' = remove_nth i (inflight w).
Proof.
  intros Hk Hkind. unfold step. rewrite Hk.
  destruct Hkind as [-> | ->]; repeat split.
Qed.

Lemma fetchVehicles_failure_witness :
  let w' := step mount (Settle 0 (Rejected "Failed to fetch") 1) in
  allVehicles (st w') = allVehicles (st mount)
  /\ availableVehicles (st w') = availableVehicles (st mount)
  /\ st w' = st mount
  /\ console w' = (console mount ++ [("차량 목록 로드 오류:", "Failed to fetch")])%list
  /\ requests w' = requests mount
  /\ inflight w' = remove_nth 0 (inflight mount).
Proof.
  apply (fetchVehicles_failure mount 0 VehiclesAwaitFetch "Failed to fetch" 1).
  - reflexivity.
  - left. reflexivity.
Defined.

(** A body that is the JSON value null fails the same way: the read of
    [data.vehicles] throws before either setter runs. *)
Lemma fetchVehicles_null_body (w : World) (i : nat) (now : N) :
  nth_error (inflight w) i = Some VehiclesAwaitJson ->
  st (step w (Settle i (Json JNull) now)) = st w.
Proof. intros Hk. unfold step. rewrite Hk. reflexivity. Qed.

(** C10. The built-in catalog is the six codes, in both lists; it is still
    in place after a failed /vehicles load (rejected fetch, or a response
    whose body does not parse); and in each of these worlds every one of the
    six cards starts a chat for its code. *)
Theorem default_catalog :
  allVehicles initialState = JArr (map JStr defaultVehicles)
  /\ availableVehicles initialState = JArr (map JStr defaultVehicles)
  /\ defaultVehicles
     = ["SONATA"; "SANTAFE"; "TUCSON"; "AVANTE"; "GRANDEUR"; "PALISADE"]
  /\ map (JS.includes (availableVehicles initialState)) (map JStr defaultVehicles)
     = map (fun _ => Some true) defaultVehicles
  /\ offers_defaults mount
  /\ (forall e t, offers_defaults (step mount (Settle 0 (Rejected e) t)))
  /\ (forall status e t t',
        offers_defaults
          (steps mount [Settle 0 (Response status) t; Settle 0 (Rejected e) t'])).
Proof.
  repeat split.
Qed.

(** * One question/answer round trip *)

(** Runs the interpreter on an explicit effect list and projects the hooks. *)
Ltac world_cbn :=
  cbn [negb run fold_left run_action app
       st inflight requests console
       question selectedVehicle availableVehicles allVehicles
       vehicleSelectionStep messages loading loadingStep].

Ltac world_simpl :=
  repeat (progress (world_cbn; unfold with_state, drop_task));
  world_cbn.

Lemma prefix_app (s t : string) : prefix s (s ++ t) = true.
Proof.
  induction s as [| a s IH]; simpl.
  - destruct t; reflexivity.
  - destruct (ascii_dec a a) as [_ | Hne]; [exact IH | congruence].
Qed.

Lemma errorMessage_is_error (now : N) (e : string) :
  is_error_content (content (errorMessage now e)) = true.
Proof. unfold errorMessage, is_error_content. cbn [content]. apply prefix_app. Qed.

(** The world [ask] leaves behind when its guard passes. *)
Lemma submitted_world (w : World) (now : N) :
  JS.trim (question (st w)) <> EmptyString ->
  JS.truthy (selectedVehicle (st w)) = true ->
  submitted w now =
    {| st := {| question := EmptyString;
                selectedVehicle := selectedVehicle (st w);
                availableVehicles := availableVehicles (st w);
                allVehicles := allVehicles (st w);
                vehicleSelectionStep := vehicleSelectionStep (st w);
                messages := messages (st w) ++ [userMessage now (question (st w))];
                loading := true;
                loadingStep := searchingStep |};
       inflight := inflight w ++ [AskAwaitFetch];
       requests := requests w ++ [askRequest (question (st w)) (selectedVehicle (st w))];
       console := console w |}.
Proof.
  intros Hq Hv. unfold submitted. rewrite (ask_accepts now (st w) Hq Hv).
  reflexivity.
Qed.

(** Settling the most recently suspended function. *)
Lemma settle_last (s : State) (l : list Task) (k : Task) (rs : list Request)
      (c : list (string * string)) (o : Settled) (now : N) (acts : list Action) :
  resume k o now = Some acts ->
  step {| st := s; inflight := l ++ [k]; requests := rs; console := c |}
       (Settle (List.length l) o now)
  = run {| st := s; inflight := l; requests := rs; console := c |} acts.
Proof.
  intros Hres. unfold step. cbn [inflight].
  rewrite nth_error_snoc, Hres. unfold drop_task. cbn [inflight st requests console].
  rewrite remove_nth_snoc. reflexivity.
Qed.

Lemma ask_answer_appends (now : N) (data : jsval) :
  exists m,
    type m = bot
    /\ (ask_answer now data = AppendMessage m :: [SetLoading false; SetLoadingStep EmptyString]
        \/ ask_answer now data
           = ConsoleError "API 요청 오류:" (JS.type_error_message data "answer")
             :: AppendMessage m :: [SetLoading false; SetLoadingStep EmptyString]).
Proof.
  unfold ask_answer.
  destruct (JS.get data "answer") as [a |]; [destruct (JS.get data "sources") as [x |] |];
    eexists; (split; [| left; reflexivity]; reflexivity)
             || (split; [| right; reflexivity]; reflexivity).
Qed.

(** C7. When [ask] passes its guard, everything it does before its one
    network effect already includes the append of the user message, whose
    content is the question, and the clearing of the draft: at that point
    the transcript ends with the question, the draft is empty and no request
    has been issued.  The question stays in the transcript when the request
    then fails. *)
Theorem ask_appends_before_fetch (w : World) (now : N) :
  JS.trim (question (st w)) <> EmptyString ->
  JS.truthy (selectedVehicle (st w)) = true ->
  let q := question (st w) in
  exists (pre : list Action) (r : Request),
    ask now (st w) = (pre ++ [Fetch r AskAwaitFetch])%list
    /\ forallb (fun a => negb (is_network a)) pre = true
    /\ In (AppendMessage (userMessage now q)) pre
    /\ In (SetQuestion EmptyString) pre
    /\ content (userMessage now q) = JStr q
    /\ type (userMessage now q) = user
    /\ messages (st (run w pre)) = (messages (st w) ++ [userMessage now q])%list
    /\ question (st (run w pre)) = EmptyString
    /\ requests (run w pre) = requests w
    /\ inflight (run w pre) = inflight w
    /\ (forall e t,
          In (userMessage now q)
             (messages (st (step (submitted w now)
                                 (Settle (List.length (inflight w)) (Rejected e) t)))))
    /\ (forall status t,
          In (userMessage now q)
             (messages (st (step (submitted w now)
                                 (Settle (List.length (inflight w)) (Response status) t))))).
Proof.
  intros Hq Hv q.
  exists [ AppendMessage (userMessage now q); SetQuestion EmptyString; SetLoading true;
           SetLoadingStep searchingStep ].
  exists (askRequest q (selectedVehicle (st w))).
  split; [exact (ask_accepts now (st w) Hq Hv) |].
  split; [reflexivity |].
  split; [simpl; auto |].
  split; [simpl; auto |].
  do 6 (split; [reflexivity |]).
  rewrite (submitted_world w now Hq Hv). split.
  - intros e t. erewrite settle_last by reflexivity.
    cbn. apply in_or_app. left. apply in_or_app. right. simpl. auto.
  - intros status t. erewrite settle_last by reflexivity.
    destruct (ok status); cbn.
    + apply in_or_app. right. simpl. auto.
    + apply in_or_app. left. apply in_or_app. right. simpl. auto.
Qed.

Lemma ask_appends_before_fetch_witness :
  JS.trim (question (st chattingSonata)) <> EmptyString
  /\ JS.truthy (selectedVehicle (st chattingSonata)) = true
  /\ exists (pre : list Action) (r : Request),
       ask 2 (st chattingSonata) = (pre ++ [Fetch r AskAwaitFetch])%list
       /\ forallb (fun a => negb (is_network a)) pre = true
       /\ In (AppendMessage (userMessage 2 "엔진오일 교환 방법은?")) pre
       /\ In (SetQuestion EmptyString) pre
       /\ messages (st (run chattingSonata pre))
          = (messages (st chattingSonata) ++ [userMessage 2 "엔진오일 교환 방법은?"])%list
       /\ question (st (run chattingSonata pre)) = EmptyString
       /\ requests (run chattingSonata pre) = requests chattingSonata.
Proof.
  assert (Hq : JS.trim (question (st chattingSonata)) <> EmptyString)
    by (vm_compute; discriminate).
  assert (Hv : JS.truthy (selectedVehicle (st chattingSonata)) = true)
    by reflexivity.
  split; [exact Hq |]. split; [exact Hv |].
  destruct (ask_appends_before_fetch chattingSonata 2 Hq Hv) as [pre [r H]].
  exists pre, r. tauto.
Defined.

(** C8. A submission that passes the guard goes through the phases in
    order.  Before its request is issued the phase is already "searching",
    and the request carries the question and the selected vehicle.  When a
    response arrives the first effect is the switch to "generating", before
    the status is looked at and before the body is read.  Whatever happens
    next (answer, unparseable body, HTTP error status) and also when the
    fetch itself rejects, the phase ends "idle". *)
Theorem phases_in_order (w : World) (now : N) :
  JS.trim (question (st w)) <> EmptyString ->
  JS.truthy (selectedVehicle (st w)) = true ->
  let q := question (st w) in
  let v := selectedVehicle (st w) in
  let i := List.length (inflight w) in
  let w1 := submitted w now in
  (exists pre,
      ask now (st w) = (pre ++ [Fetch (askRequest q v) AskAwaitFetch])%list
      /\ forallb (fun a => negb (is_network a)) pre = true
      /\ phase (st (run w pre)) = Some searching
      /\ requests (run w pre) = requests w)
  /\ body (askRequest q v) = JObj [("q", JStr q); ("vehicle", v)]
  /\ phase (st w1) = Some searching
  /\ requests w1 = (requests w ++ [askRequest q v])%list
  /\ (forall status t,
        exists rest,
          resume AskAwaitFetch (Response status) t
          = Some (SetLoadingStep generatingStep :: rest)
          /\ phase (st (run w1 [SetLoadingStep generatingStep])) = Some generating
          /\ inflight (run w1 [SetLoadingStep generatingStep]) = inflight w1)
  /\ (forall status t,
        let w2 := step w1 (Settle i (Response status) t) in
        phase (st w2) = Some (if ok status then generating else idle)
        /\ nth_error (inflight w2) i = (if ok status then Some AskAwaitJson else None)
        /\ (forall data t', phase (st (step w2 (Settle i (Json data) t'))) = Some idle)
        /\ (forall e t', phase (st (step w2 (Settle i (Rejected e) t'))) = Some idle))
  /\ (forall e t, phase (st (step w1 (Settle i (Rejected e) t))) = Some idle).
Proof.
  intros Hq Hv q v i w1. subst q v i w1.
  rewrite (submitted_world w now Hq Hv).
  split.
  { eexists [ AppendMessage _; SetQuestion EmptyString; SetLoading true;
              SetLoadingStep searchingStep ].
    split; [exact (ask_accepts now (st w) Hq Hv) |]. repeat split. }
  do 3 (split; [reflexivity |]).
  split.
  { intros status t. eexists. repeat split. }
  split.
  { intros status t. cbv zeta. erewrite settle_last by reflexivity.
    destruct (ok status); unfold ask_catch; world_simpl.
    - split; [reflexivity |].
      split; [apply nth_error_snoc |].
      split.
      + intros data t'. erewrite settle_last by reflexivity.
        destruct (ask_answer_appends t' data) as [m [_ [-> | ->]]]; reflexivity.
      + intros e t'. erewrite settle_last by reflexivity. reflexivity.
    - assert (Hnone : nth_error (inflight w) (List.length (inflight w)) = None)
        by (apply nth_error_None; lia).
      split; [reflexivity |].
      split; [exact Hnone |].
      split; intros; unfold step; world_simpl; rewrite Hnone; reflexivity. }
  intros e t. erewrite settle_last by reflexivity. reflexivity.
Qed.

Lemma phases_in_order_witness :
  JS.trim (question (st chattingSonata)) <> EmptyString
  /\ JS.truthy (selectedVehicle (st chattingSonata)) = true
  /\ phase (st (submitted chattingSonata 2)) = Some searching
  /\ requests (submitted chattingSonata 2)
     = (requests chattingSonata
          ++ [askRequest (question (st chattingSonata))
                         (selectedVehicle (st chattingSonata))])%list
  /\ (forall e t,
        phase (st (step (submitted chattingSonata 2)
                        (Settle (List.length (inflight chattingSonata)) (Rejected e) t)))
        = Some idle).
Proof.
  assert (Hq : JS.trim (question (st chattingSonata)) <> EmptyString)
    by (vm_compute; discriminate).
  assert (Hv : JS.truthy (selectedVehicle (st chattingSonata)) = true)
    by reflexivity.
  split; [exact Hq |]. split; [exact Hv |].
  pose proof (phases_in_order chattingSonata 2 Hq Hv) as H.
  cbv zeta in H. tauto.
Defined.

(** * Bodies without an answer *)

(** C4. The code does not do what the claim says.  A question is sent for
    SONATA and the backend answers 200 with the empty object as body.  On a
    500 the [catch] block appends the error string with its reason and logs
    the error, which is what the claim asks for here too.  On the empty
    object nothing is thrown: [data.answer] is read unchecked, beside the
    guarded [data.sources || []], and a bot message whose content is
    [undefined] and whose sources are the empty list is appended; nothing is
    logged, the phase returns to idle, and the chat screen hands
    [undefined] to [marked]. *)
Theorem empty_body_is_not_reported :
  let sent := step chattingSonata (ClickSend 2) in
  let malformed := steps sent [Settle 1 (Response 200) 3; Settle 1 (Json (JObj [])) 4] in
  let http500 := steps sent [Settle 1 (Response 500) 3] in
  messages (st http500)
  = (messages (st sent)
       ++ [errorMessage 3 ("HTTP error! status: " ++ JS.string_of_N 500)])%list
  /\ map (fun m => is_error_content (content m)) (messages (st http500))
     = [false; false; true]
  /\ console http500 = [("API 요청 오류:", "HTTP error! status: 500")]
  /\ markedCalls (st http500)
     = [ content (welcomeMessage 1 (JStr "SONATA"));
         JStr (errorPrefix ++ "HTTP error! status: 500") ]
  /\ messages (st malformed)
     = (messages (st sent)
          ++ [ {| type := bot; content := JUndefined; timestamp := 4;
                  sources := JArr [] |} ])%list
  /\ map (fun m => is_error_content (content m)) (messages (st malformed))
     = [false; false; false]
  /\ console malformed = []
  /\ phase (st malformed) = Some idle
  /\ markedCalls (st malformed)
     = [ content (welcomeMessage 1 (JStr "SONATA")); JUndefined ].
Proof. cbv zeta. repeat apply conj; vm_compute; reflexivity. Qed.

(** The same for every body that parses to something other than null and
    has no [answer], in any world: the success path runs.  The appended bot
    message has content [undefined], which is not an error string, and as
    sources the body's [sources] if that is truthy and the empty list
    otherwise; nothing is logged or requested, loading is switched off, and
    on the chat screen [undefined] is among the values handed to [marked].
    Only a body that does not parse, or that is null, reaches the [catch]
    block. *)
Lemma missing_answer_takes_success_path
      (w : World) (i : nat) (data srcs : jsval) (now : N) :
  nth_error (inflight w) i = Some AskAwaitJson ->
  JS.get data "answer" = Some JUndefined ->
  JS.get data "sources" = Some srcs ->
  (let w' := step w (Settle i (Json data) now) in
   let m := {| type := bot; content := JUndefined; timestamp := now;
               sources := if JS.truthy srcs then srcs else JArr [] |} in
   messages (st w') = (messages (st w) ++ [m])%list
   /\ is_error_content (content m) = false
   /\ loading (st w') = false
   /\ loadingStep (st w') = EmptyString
   /\ console w' = console w
   /\ requests w' = requests w
   /\ (vehicleSelectionStep (st w) = false -> In JUndefined (markedCalls (st w'))))
  /\ (forall e,
        let w' := step w (Settle i (Rejected e) now) in
        messages (st w') = (messages (st w) ++ [errorMessage now e])%list
        /\ content (errorMessage now e) = JStr (errorPrefix ++ e)
        /\ is_error_content (content (errorMessage now e)) = true
        /\ loading (st w') = false
        /\ loadingStep (st w') = EmptyString)
  /\ (let e := JS.type_error_message JNull "answer" in
      let w' := step w (Settle i (Json JNull) now) in
      messages (st w') = (messages (st w) ++ [errorMessage now e])%list
      /\ is_error_content (content (errorMessage now e)) = true
      /\ loading (st w') = false
      /\ loadingStep (st w') = EmptyString).
Proof.
  intros Hk Hans Hsrc. split; [| split].
  - cbv zeta. unfold step. rewrite Hk. cbn [resume]. unfold ask_answer.
    rewrite Hans, Hsrc. unfold botMessage, JS.or. world_simpl.
    do 6 (split; [reflexivity |]).
    intros Hsel. unfold markedCalls. world_simpl. rewrite Hsel.
    rewrite filter_app, map_app. apply in_or_app. right. simpl. auto.
  - intros e. cbv zeta. unfold step. rewrite Hk. cbn [resume].
    unfold ask_catch. world_simpl.
    repeat split. apply errorMessage_is_error.
  - cbv zeta. unfold step. rewrite Hk. repeat split.
Qed.

Lemma missing_answer_takes_success_path_witness :
  let w := steps chattingSonata [ClickSend 2; Settle 1 (Response 200) 3] in
  let data := JObj [("sources", JNull)] in
  nth_error (inflight w) 1 = Some AskAwaitJson
  /\ JS.get data "answer" = Some JUndefined
  /\ JS.get data "sources" = Some JNull
  /\ messages (st (step w (Settle 1 (Json data) 4)))
     = (messages (st w)
          ++ [ {| type := bot; content := JUndefined; timestamp := 4;
                  sources := JArr [] |} ])%list
  /\ In JUndefined (markedCalls (st (step w (Settle 1 (Json data) 4)))).
Proof.
  intros w data.
  assert (Hk : nth_error (inflight w) 1 = Some AskAwaitJson) by reflexivity.
  assert (Ha : JS.get data "answer" = Some JUndefined) by reflexivity.
  assert (Hs : JS.get data "sources" = Some JNull) by reflexivity.
  split; [exact Hk |]. split; [exact Ha |]. split; [exact Hs |].
  destruct (missing_answer_takes_success_path w 1 data JNull 4 Hk Ha Hs)
    as [(Hm & _ & _ & _ & _ & _ & Hmarked) _].
  split; [exact Hm | exact (Hmarked eq_refl)].
Defined.

(** * Reset while a request is in flight *)

Ltac reset_step :=
  match goal with
  | |- context [step ?x ClickChangeVehicle] =>
      change (step x ClickChangeVehicle) with (run x changeVehicle);
      unfold changeVehicle; world_simpl
  end.

(** C1, as stated, fails: a question is sent, the vehicle is changed while
    the request is in flight, and the answer that arrives afterwards is in
    the transcript of the reset session, on the selection screen. *)
Lemma stale_answer_reaches_new_session :
  let answer := JObj [("answer", JStr "오일을 교환하세요"); ("sources", JArr [])] in
  let w := steps chattingSonata
             [ ClickSend 2; ClickChangeVehicle;
               Settle 1 (Response 200) 3; Settle 1 (Json answer) 4 ] in
  List.length (requests (step chattingSonata (ClickSend 2)))
  = S (List.length (requests chattingSonata))
  /\ messages (st (steps chattingSonata [ClickSend 2; ClickChangeVehicle])) = []
  /\ vehicleSelectionStep (st w) = true
  /\ selectedVehicle (st w) = JStr EmptyString
  /\ messages (st w) = [botMessage 4 (JStr "오일을 교환하세요") (JArr [])]
  /\ In (botMessage 4 (JStr "오일을 교환하세요") (JArr [])) (messages (st w)).
Proof. repeat split. simpl. auto. Qed.

(** C1, amended. [changeVehicle] empties the transcript at the moment it is
    called and nothing else: the suspended request is kept and carries no
    mark of the session it belongs to.  Whenever the reset falls between the
    sending of a question and the arrival of its result, the result's bot
    message (the answer, or the error text) is appended after the reset, so
    the transcript of the reset session consists of exactly that message. *)
Theorem stale_result_is_appended (w : World) (now : N) (data answer : jsval) (status : N) :
  JS.trim (question (st w)) <> EmptyString ->
  JS.truthy (selectedVehicle (st w)) = true ->
  ok status = true ->
  JS.get data "answer" = Some answer ->
  let i := List.length (inflight w) in
  let w1 := submitted w now in
  inflight (step w1 ClickChangeVehicle) = inflight w1
  /\ messages (st (step w1 ClickChangeVehicle)) = []
  /\ (forall t1 t2,
        exists m,
          messages (st (steps w1 [ ClickChangeVehicle;
                                   Settle i (Response status) t1;
                                   Settle i (Json data) t2 ])) = [m]
          /\ type m = bot /\ content m = answer)
  /\ (forall t1 t2,
        exists m,
          messages (st (steps w1 [ Settle i (Response status) t1;
                                   ClickChangeVehicle;
                                   Settle i (Json data) t2 ])) = [m]
          /\ type m = bot /\ content m = answer)
  /\ (forall e t,
        messages (st (steps w1 [ ClickChangeVehicle; Settle i (Rejected e) t ]))
        = [errorMessage t e]).
Proof.
  intros Hq Hv Hok Hans i w1. subst i w1.
  rewrite (submitted_world w now Hq Hv).
  assert (Hsrc : exists srcs, JS.get data "sources" = Some srcs)
    by (destruct data; try discriminate; eexists; reflexivity).
  destruct Hsrc as [srcs Hsrc].
  split; [reflexivity |]. split; [reflexivity |].
  split; [| split].
  - intros t1 t2. exists (botMessage t2 answer srcs).
    unfold steps. cbn [fold_left]. reset_step.
    erewrite settle_last by reflexivity. rewrite Hok. world_simpl.
    erewrite settle_last by reflexivity. unfold ask_answer.
    rewrite Hans, Hsrc. repeat split.
  - intros t1 t2. exists (botMessage t2 answer srcs).
    unfold steps. cbn [fold_left].
    erewrite settle_last by reflexivity. rewrite Hok. world_simpl.
    reset_step.
    erewrite settle_last by reflexivity. unfold ask_answer.
    rewrite Hans, Hsrc. repeat split.
  - intros e t. unfold steps. cbn [fold_left]. reset_step.
    erewrite settle_last by reflexivity. reflexivity.
Qed.

Lemma stale_result_is_appended_witness :
  JS.trim (question (st chattingSonata)) <> EmptyString
  /\ JS.truthy (selectedVehicle (st chattingSonata)) = true
  /\ ok 200 = true
  /\ JS.get (JObj [("answer", JStr "오일을 교환하세요")]) "answer"
     = Some (JStr "오일을 교환하세요")
  /\ exists m,
       messages (st (steps (submitted chattingSonata 2)
                      [ ClickChangeVehicle;
                        Settle (List.length (inflight chattingSonata)) (Response 200) 3;
                        Settle (List.length (inflight chattingSonata))
                               (Json (JObj [("answer", JStr "오일을 교환하세요")])) 4 ]))
       = [m]
       /\ type m = bot
       /\ content m = JStr "오일을 교환하세요".
Proof.
  assert (Hq : JS.trim (question (st chattingSonata)) <> EmptyString)
    by (vm_compute; discriminate).
  assert (Hv : JS.truthy (selectedVehicle (st chattingSonata)) = true)
    by reflexivity.
  do 4 (split; [first [exact Hq | reflexivity] |]).
  destruct (stale_result_is_appended chattingSonata 2
              (JObj [("answer", JStr "오일을 교환하세요")])
              (JStr "오일을 교환하세요") 200 Hq Hv eq_refl eq_refl)
    as (_ & _ & H & _).
  exact (H 3%N 4%N).
Defined.

(** * Accounting over event sequences *)

Lemma count_remove_nth {A : Type} (p : A -> bool) (l : list A) :
  forall i k,
    nth_error l i = Some k ->
    List.length (filter p l)
    = List.length (filter p (remove_nth i l)) + (if p k then 1 else 0).
Proof.
  induction l as [| x l IH]; intros i k Hk.
  - destruct i; discriminate.
  - destruct i as [| j]; simpl in Hk.
    + injection Hk as ->. simpl. destruct (p k); simpl; lia.
    + simpl. specialize (IH j k Hk). destruct (p x); simpl; lia.
Qed.

Lemma count_snoc {A : Type} (p : A -> bool) (l : list A) (x : A) :
  List.length (filter p (l ++ [x]))
  = List.length (filter p l) + (if p x then 1 else 0).
Proof.
  rewrite filter_app, length_app. simpl. destruct (p x); reflexivity.
Qed.

(** [ask] either returns at its guard or leaves the world of
    [submitted_world]. *)
Lemma ask_cases (w : World) (now : N) :
  (ask now (st w) = [] /\ submitted w now = w)
  \/ (JS.trim (question (st w)) <> EmptyString /\ JS.truthy (selectedVehicle (st w)) = true).
Proof.
  destruct (String.eqb (JS.trim (question (st w))) EmptyString) eqn:Hq.
  - left. apply String.eqb_eq in Hq.
    assert (H : ask now (st w) = []) by (apply ask_rejects; auto).
    split; [exact H |]. unfold submitted. rewrite H. reflexivity.
  - destruct (JS.truthy (selectedVehicle (st w))) eqn:Hv.
    + right. apply String.eqb_neq in Hq. auto.
    + left.
      assert (H : ask now (st w) = []) by (apply ask_rejects; auto).
      split; [exact H |]. unfold submitted. rewrite H. reflexivity.
Qed.

Lemma is_ask_request_ask (q : string) (v : jsval) :
  is_ask_request (askRequest q v) = true.
Proof. reflexivity. Qed.

(** The four numbers the accounting follows. *)
Ltac counts :=
  unfold asks_in_flight, asks_issued; world_simpl;
  repeat rewrite count_snoc; rewrite ?is_ask_request_ask; cbn [is_ask_task];
  rewrite ?length_app; cbn [List.length].

Lemma submitted_accounting (w : World) (now : N) :
  List.length (messages (st (submitted w now))) + asks_in_flight (submitted w now)
    + 2 * asks_issued w
  = List.length (messages (st w)) + asks_in_flight w
    + 2 * asks_issued (submitted w now).
Proof.
  destruct (ask_cases w now) as [[_ ->] | [Hq Hv]]; [lia |].
  rewrite (submitted_world w now Hq Hv). counts. lia.
Qed.

Lemma settle_accounting (w : World) (i : nat) (o : Settled) (now : N) :
  let w' := step w (Settle i o now) in
  List.length (messages (st w')) + asks_in_flight w'
  = List.length (messages (st w)) + asks_in_flight w
  /\ requests w' = requests w.
Proof.
  cbv zeta. unfold step.
  destruct (nth_error (inflight w) i) as [k |] eqn:Hk; [| auto].
  pose proof (count_remove_nth is_ask_task (inflight w) i k Hk) as Hcount.
  destruct k, o; cbn [resume]; auto; cbn [is_ask_task] in Hcount;
    unfold vehicles_data, vehicles_catch, ask_catch.
  - counts. split; [lia | reflexivity].
  - counts. split; [lia | reflexivity].
  - counts. split; [lia | reflexivity].
  - destruct (JS.get data "vehicles"), (JS.get data "available_vehicles");
      counts; split; (lia || reflexivity).
  - counts. split; [lia | reflexivity].
  - destruct (ok status); counts; split; (lia || reflexivity).
  - counts. split; [lia | reflexivity].
  - destruct (ask_answer_appends now data) as [m [_ [-> | ->]]];
      counts; split; (lia || reflexivity).
Qed.

Lemma step_accounting (w : World) (e : Event) :
  chat_event e = true ->
  List.length (messages (st (step w e))) + asks_in_flight (step w e)
    + 2 * asks_issued w
  = List.length (messages (st w)) + asks_in_flight w
    + 2 * asks_issued (step w e).
Proof.
  intros He. destruct e as [i t | | q | i | key shiftKey t | t | i o t];
    try discriminate.
  - cbn [step].
    destruct (vehicleSelectionStep (st w) || textareaDisabled (st w));
      [reflexivity |]. counts. reflexivity.
  - cbn [step]. destruct (vehicleSelectionStep (st w)); [reflexivity |].
    destruct (nth_error quickActions i); [| reflexivity]. counts. reflexivity.
  - cbn [step].
    destruct (vehicleSelectionStep (st w) || textareaDisabled (st w));
      [reflexivity |].
    unfold handleKeyPress.
    destruct (String.eqb key "Enter" && negb shiftKey); [| reflexivity].
    apply (submitted_accounting w t).
  - cbn [step].
    destruct (vehicleSelectionStep (st w) || sendDisabled (st w));
      [reflexivity |].
    apply (submitted_accounting w t).
  - destruct (settle_accounting w i o t) as [Hlen Hreq]. cbv zeta in Hlen, Hreq.
    unfold asks_issued. rewrite Hreq. lia.
Qed.

(** Over any run of chat events, transcript length plus open round trips
    grows by exactly two per /ask request issued. *)
Lemma steps_accounting (es : list Event) :
  forall w,
    forallb chat_event es = true ->
    List.length (messages (st (steps w es))) + asks_in_flight (steps w es)
      + 2 * asks_issued w
    = List.length (messages (st w)) + asks_in_flight w
      + 2 * asks_issued (steps w es).
Proof.
  induction es as [| e es IH]; intros w Hes.
  - reflexivity.
  - simpl in Hes. apply andb_prop in Hes as [He Hes].
    unfold steps in *. cbn [fold_left].
    specialize (IH (step w e) Hes).
    pose proof (step_accounting w e He). lia.
Qed.

(** * The loading flag and requests in flight *)

Lemma consistent_mount : consistent mount.
Proof. split; [reflexivity |]. intros _. vm_compute. lia. Qed.

Ltac consistent_case H1 H2 :=
  unfold consistent, asks_in_flight in *; world_simpl;
  repeat rewrite count_snoc; cbn [is_ask_task];
  split;
  [ try (destruct (loading _)); lia
  | let Hs := fresh "Hs" in
    intros Hs; try discriminate;
    try (specialize (H2 Hs)); try (destruct (loading _));
    rewrite ?length_app; cbn [List.length]; lia ].

Lemma consistent_submitted (w : World) (now : N) :
  loading (st w) = false ->
  vehicleSelectionStep (st w) = false ->
  consistent w ->
  consistent (submitted w now).
Proof.
  intros Hload Hsel Hw.
  destruct (ask_cases w now) as [[_ ->] | [Hq Hv]]; [exact Hw |].
  rewrite (submitted_world w now Hq Hv).
  destruct Hw as [H1 H2]. rewrite Hload in H1. rewrite Hsel.
  consistent_case H1 H2.
Qed.

Lemma consistent_step (w : World) (e : Event) :
  consistent w -> consistent (step w e).
Proof.
  intros Hw.
  destruct e as [i t | | q | i | key shiftKey t | t | i o t]; cbn [step].
  - destruct (vehicleSelectionStep (st w)); [| exact Hw].
    destruct (cards (st w)) as [cs |]; [| exact Hw].
    destruct (nth_error cs i) as [[v [|]] |]; try exact Hw.
    destruct Hw as [H1 H2]. unfold cardOnClick, selectVehicle.
    consistent_case H1 H2.
  - destruct Hw as [H1 H2]. unfold changeVehicle.
    unfold consistent, asks_in_flight in *. world_simpl.
    split; [exact H1 |]. intros _. cbn [List.length].
    destruct (loading (st w)); lia.
  - destruct (vehicleSelectionStep (st w) || textareaDisabled (st w));
      [exact Hw |]. exact Hw.
  - destruct (vehicleSelectionStep (st w)); [exact Hw |].
    destruct (nth_error quickActions i); exact Hw.
  - destruct (vehicleSelectionStep (st w)) eqn:Hsel; [exact Hw |].
    unfold textareaDisabled.
    destruct (loading (st w)) eqn:Hload; [exact Hw |]. cbn [orb].
    unfold handleKeyPress.
    destruct (String.eqb key "Enter" && negb shiftKey); [| exact Hw].
    apply (consistent_submitted w t Hload Hsel Hw).
  - destruct (vehicleSelectionStep (st w)) eqn:Hsel; [exact Hw |].
    unfold sendDisabled.
    destruct (loading (st w)) eqn:Hload; [exact Hw |]. cbn [orb].
    destruct (negb (JS.truthy (JStr (JS.trim (question (st w)))))); [exact Hw |].
    apply (consistent_submitted w t Hload Hsel Hw).
  - destruct (nth_error (inflight w) i) as [k |] eqn:Hk; [| exact Hw].
    pose proof (count_remove_nth is_ask_task (inflight w) i k Hk) as Hcount.
    destruct Hw as [H1 H2].
    destruct k, o; cbn [resume]; try (split; assumption);
      cbn [is_ask_task] in Hcount;
      unfold vehicles_data, vehicles_catch, ask_catch.
    + consistent_case H1 H2.
    + consistent_case H1 H2.
    + consistent_case H1 H2.
    + destruct (JS.get data "vehicles"), (JS.get data "available_vehicles");
        consistent_case H1 H2.
    + consistent_case H1 H2.
    + destruct (ok status); consistent_case H1 H2.
    + consistent_case H1 H2.
    + destruct (ask_answer_appends t data) as [m [_ [-> | ->]]];
        consistent_case H1 H2.
Qed.

Lemma reachable_consistent (w : World) : reachable w -> consistent w.
Proof.
  induction 1 as [| w e _ IH].
  - exact consistent_mount.
  - apply consistent_step. exact IH.
Qed.

Lemma reachable_steps (es : list Event) :
  forall w, reachable w -> reachable (steps w es).
Proof.
  induction es as [| e es IH]; intros w Hw.
  - exact Hw.
  - unfold steps. cbn [fold_left]. apply IH. apply reach_step. exact Hw.
Qed.

(** Right after a submission the draft is empty, so [ask] called again at
    once returns at its guard. *)
Lemma ask_after_submit (w : World) (now t : N) :
  ask t (st (submitted w now)) = [].
Proof.
  destruct (ask_cases w now) as [[Hnil ->] | [Hq Hv]].
  - unfold ask in *.
    destruct (negb (JS.truthy (JStr (JS.trim (question (st w)))))
              || negb (JS.truthy (selectedVehicle (st w))));
      [reflexivity | discriminate].
  - rewrite (submitted_world w now Hq Hv). reflexivity.
Qed.

(** C2, as stated, fails: [ask] does not look at [loading].  A question is
    in flight and a quick-action button has refilled the draft; [ask] called
    in that state, directly or through [handleKeyPress], appends a second
    user message and issues a second request. *)
Lemma ask_ignores_loading :
  let w := steps chattingSonata [ClickSend 2; ClickQuickAction 0] in
  let w' := run w (ask 3 (st w)) in
  loading (st w) = true
  /\ phase (st w) = Some searching
  /\ asks_in_flight w = 1
  /\ w' = run w (handleKeyPress "Enter" false 3 (st w))
  /\ List.length (messages (st w')) = S (List.length (messages (st w)))
  /\ requests w'
     = (requests w ++ [askRequest "엔진오일 교환 방법을 알려주세요" (JStr "SONATA")])%list
  /\ asks_in_flight w' = 2.
Proof. cbv zeta. repeat apply conj; vm_compute; reflexivity. Qed.

(** C2, amended. The gate on a request in flight is in the controls, not in
    [ask]: while [loading] is on, the send button and the textarea are
    disabled, so a click on send, a key press and typing change nothing and
    issue nothing.  [ask] itself only returns early on a blank draft or a
    missing vehicle, which covers a second call made right after a
    submission.  In every world reachable through the controls [loading] is
    on exactly while one /ask round trip is open, so at most one is in
    flight. *)
Theorem submission_gate (w : World) :
  reachable w ->
  asks_in_flight w = (if loading (st w) then 1 else 0)
  /\ asks_in_flight w <= 1
  /\ (loading (st w) = true ->
      forall now key shiftKey q,
        step w (ClickSend now) = w
        /\ step w (KeyPress key shiftKey now) = w
        /\ step w (ChangeQuestion q) = w)
  /\ (forall now t, ask t (st (submitted w now)) = []).
Proof.
  intros Hw. destruct (reachable_consistent w Hw) as [H1 _].
  split; [exact H1 |].
  split; [rewrite H1; destruct (loading (st w)); lia |].
  split.
  - intros Hload now key shiftKey q. cbn [step].
    unfold sendDisabled, textareaDisabled. rewrite Hload.
    rewrite !orb_true_r. cbn [orb]. repeat split.
  - intros now t. apply ask_after_submit.
Qed.

Lemma submission_gate_witness :
  let w := steps chattingSonata [ClickSend 2; ClickQuickAction 0] in
  reachable w
  /\ loading (st w) = true
  /\ asks_in_flight w = 1
  /\ step w (ClickSend 3) = w
  /\ step w (KeyPress "Enter" false 3) = w
  /\ requests (step w (KeyPress "Enter" false 3)) = requests w.
Proof.
  intros w.
  assert (Hw : reachable w).
  { unfold w, chattingSonata. do 2 apply reachable_steps. apply reach_mount. }
  split; [exact Hw |].
  destruct (submission_gate w Hw) as (H1 & _ & H3 & _).
  assert (Hload : loading (st w) = true) by reflexivity.
  destruct (H3 Hload 3%N "Enter" false EmptyString) as (Ha & Hb & _).
  split; [exact Hload |].
  split; [rewrite H1, Hload; reflexivity |].
  split; [exact Ha |].
  split; [exact Hb |].
  rewrite Hb. reflexivity.
Defined.

(** * Transcript growth *)

Lemma submitted_monotone (w : World) (now : N) :
  List.length (messages (st w)) <= List.length (messages (st (submitted w now))).
Proof.
  destruct (ask_cases w now) as [[_ ->] | [Hq Hv]]; [lia |].
  rewrite (submitted_world w now Hq Hv). world_simpl.
  rewrite length_app. lia.
Qed.

Lemma step_monotone (w : World) (e : Event) :
  consistent w ->
  e <> ClickChangeVehicle ->
  List.length (messages (st w)) <= List.length (messages (st (step w e))).
Proof.
  intros [H1 H2] He.
  destruct e as [i t | | q | i | key shiftKey t | t | i o t];
    try congruence; cbn [step].
  - destruct (vehicleSelectionStep (st w)); [| lia].
    specialize (H2 eq_refl).
    destruct (cards (st w)) as [cs |]; [| lia].
    destruct (nth_error cs i) as [[v [|]] |];
      unfold cardOnClick, selectVehicle; world_simpl; cbn [List.length]; lia.
  - destruct (vehicleSelectionStep (st w) || textareaDisabled (st w)); cbn; lia.
  - destruct (vehicleSelectionStep (st w)); [lia |].
    destruct (nth_error quickActions i); cbn; lia.
  - destruct (vehicleSelectionStep (st w) || textareaDisabled (st w)); [lia |].
    unfold handleKeyPress.
    destruct (String.eqb key "Enter" && negb shiftKey); [| cbn; lia].
    apply (submitted_monotone w t).
  - destruct (vehicleSelectionStep (st w) || sendDisabled (st w)); [lia |].
    apply (submitted_monotone w t).
  - destruct (nth_error (inflight w) i) as [k |]; [| lia].
    destruct k, o; cbn [resume]; try lia;
      unfold vehicles_data, vehicles_catch, ask_catch.
    + world_simpl. lia.
    + world_simpl. lia.
    + world_simpl. lia.
    + destruct (JS.get data "vehicles"), (JS.get data "available_vehicles");
        world_simpl; lia.
    + world_simpl. rewrite length_app. lia.
    + destruct (ok status); world_simpl; rewrite ?length_app; lia.
    + world_simpl. rewrite length_app. lia.
    + destruct (ask_answer_appends t data) as [m [_ [-> | ->]]];
        world_simpl; rewrite length_app; lia.
Qed.

(** C3. A submission that passes the guard adds exactly two messages, the
    user's question and then one bot message, on every way the round trip
    can end: the fetch rejects, the status is not a success, the body does
    not parse, or the body parses.  Over any run of chat events the length
    of the transcript plus the round trips still open grows by exactly two
    per question sent.  In every reachable world, no event other than the
    vehicle change shortens the transcript. *)
Theorem transcript_grows_by_two :
  (forall w now,
      JS.trim (question (st w)) <> EmptyString ->
      JS.truthy (selectedVehicle (st w)) = true ->
      let u := userMessage now (question (st w)) in
      let i := List.length (inflight w) in
      let w1 := submitted w now in
      type u = user
      /\ messages (st w1) = (messages (st w) ++ [u])%list
      /\ (forall e t,
            messages (st (step w1 (Settle i (Rejected e) t)))
            = (messages (st w) ++ [u; errorMessage t e])%list)
      /\ (forall status t,
            ok status = false ->
            messages (st (step w1 (Settle i (Response status) t)))
            = (messages (st w)
                 ++ [u; errorMessage t ("HTTP error! status: "
                                          ++ JS.string_of_N status)])%list)
      /\ (forall status t e t',
            ok status = true ->
            messages (st (steps w1 [ Settle i (Response status) t;
                                     Settle i (Rejected e) t' ]))
            = (messages (st w) ++ [u; errorMessage t' e])%list)
      /\ (forall status t data t',
            ok status = true ->
            exists b,
              messages (st (steps w1 [ Settle i (Response status) t;
                                       Settle i (Json data) t' ]))
              = (messages (st w) ++ [u; b])%list
              /\ type b = bot
              /\ inflight (steps w1 [ Settle i (Response status) t;
                                      Settle i (Json data) t' ]) = inflight w))
  /\ (forall w es,
        forallb chat_event es = true ->
        List.length (messages (st (steps w es))) + asks_in_flight (steps w es)
          + 2 * asks_issued w
        = List.length (messages (st w)) + asks_in_flight w
          + 2 * asks_issued (steps w es))
  /\ (forall w e,
        reachable w ->
        e <> ClickChangeVehicle ->
        List.length (messages (st w)) <= List.length (messages (st (step w e)))).
Proof.
  split; [| split].
  - intros w now Hq Hv u i w1. subst u i w1.
    rewrite (submitted_world w now Hq Hv).
    split; [reflexivity |]. split; [reflexivity |].
    split; [| split; [| split]].
    + intros e t. erewrite settle_last by reflexivity.
      unfold ask_catch. world_simpl. rewrite <- app_assoc. reflexivity.
    + intros status t Hok. erewrite settle_last by reflexivity.
      rewrite Hok. unfold ask_catch. world_simpl.
      rewrite <- app_assoc. reflexivity.
    + intros status t e t' Hok. unfold steps. cbn [fold_left].
      erewrite settle_last by reflexivity. rewrite Hok. world_simpl.
      erewrite settle_last by reflexivity.
      unfold ask_catch. world_simpl. rewrite <- app_assoc. reflexivity.
    + intros status t data t' Hok. unfold steps. cbn [fold_left].
      erewrite settle_last by reflexivity. rewrite Hok. world_simpl.
      erewrite settle_last by reflexivity.
      destruct (ask_answer_appends t' data) as [m [Hty Hm]].
      exists m. destruct Hm as [-> | ->]; world_simpl;
        rewrite <- app_assoc; repeat split; exact Hty.
  - intros w es. apply steps_accounting.
  - intros w e Hw He. apply step_monotone; [apply reachable_consistent |]; assumption.
Qed.

Lemma transcript_grows_by_two_witness :
  let w := chattingSonata in
  let u := userMessage 2 (question (st w)) in
  let i := List.length (inflight w) in
  JS.trim (question (st w)) <> EmptyString
  /\ JS.truthy (selectedVehicle (st w)) = true
  /\ ok 500 = false
  /\ messages (st (step (submitted w 2) (Settle i (Response 500) 3)))
     = (messages (st w)
          ++ [u; errorMessage 3 ("HTTP error! status: " ++ JS.string_of_N 500)])%list
  /\ reachable w
  /\ ClickSend 2 <> ClickChangeVehicle
  /\ List.length (messages (st w)) <= List.length (messages (st (step w (ClickSend 2))))
  /\ forallb chat_event [ClickSend 2; Settle 1 (Response 500) 3] = true
  /\ List.length (messages (st (steps w [ClickSend 2; Settle 1 (Response 500) 3])))
       + asks_in_flight (steps w [ClickSend 2; Settle 1 (Response 500) 3])
       + 2 * asks_issued w
     = List.length (messages (st w)) + asks_in_flight w
       + 2 * asks_issued (steps w [ClickSend 2; Settle 1 (Response 500) 3]).
Proof.
  intros w u i.
  assert (Hq : JS.trim (question (st w)) <> EmptyString)
    by (vm_compute; discriminate).
  assert (Hv : JS.truthy (selectedVehicle (st w)) = true) by reflexivity.
  assert (Hw : reachable w).
  { unfold w, chattingSonata. apply reachable_steps. apply reach_mount. }
  assert (Hne : ClickSend 2 <> ClickChangeVehicle) by discriminate.
  assert (Hes : forallb chat_event [ClickSend 2; Settle 1 (Response 500) 3] = true)
    by reflexivity.
  destruct transcript_grows_by_two as (Hone & Hmany & Hmono).
  destruct (Hone w 2%N Hq Hv) as (_ & _ & _ & Hhttp & _).
  split; [exact Hq |].
  split; [exact Hv |].
  split; [reflexivity |].
  split; [exact (Hhttp 500%N 3%N eq_refl) |].
  split; [exact Hw |].
  split; [exact Hne |].
  split; [exact (Hmono w (ClickSend 2) Hw Hne) |].
  split; [exact Hes |].
  exact (Hmany w [ClickSend 2; Settle 1 (Response 500) 3] Hes).
Defined.

(** * Transitions of the event loop *)

Lemma submitted_unfold (w : World) (t : N) : run w (ask t (st w)) = submitted w t.
Proof. reflexivity. Qed.

Lemma includes_total (av v v0 : jsval) (b : bool) :
  JS.includes av v = Some b -> exists b0, JS.includes av v0 = Some b0.
Proof.
  destruct av; simpl; try discriminate; intros _; eexists; reflexivity.
Qed.

Lemma cards_of_total (av v : jsval) (b : bool) (vs : list jsval) :
  JS.includes av v = Some b -> exists cs, cards_of av vs = Some cs.
Proof.
  intros Hinc. induction vs as [| v0 vs [cs IH]].
  - exists []. reflexivity.
  - destruct (includes_total av v v0 b Hinc) as [b0 Hb0].
    exists ((v0, b0) :: cs). simpl. rewrite Hb0, IH. reflexivity.
Qed.

Lemma cards_available (av : jsval) (vs : list jsval) (i : nat) (v : jsval) (b : bool) :
  nth_error vs i = Some v ->
  JS.includes av v = Some b ->
  exists cs, cards_of av vs = Some cs /\ nth_error cs i = Some (v, b).
Proof.
  intros Hv Hinc.
  destruct (cards_of_total av v b vs Hinc) as [cs Hcs].
  exists cs. split; [exact Hcs |].
  destruct (cards_of_nth av vs cs i v Hcs Hv) as [b' [Hinc' Hnth]].
  rewrite Hinc in Hinc'. injection Hinc' as <-. exact Hnth.
Qed.

Lemma cards_nth_inv (s : State) (cs : list (jsval * bool)) (i : nat) (v : jsval) (b : bool) :
  cards s = Some cs ->
  nth_error cs i = Some (v, b) ->
  exists vs, allVehicles s = JArr vs
             /\ nth_error vs i = Some v
             /\ JS.includes (availableVehicles s) v = Some b.
Proof.
  unfold cards. destruct (allVehicles s) as [| | | | | vs |]; try discriminate.
  intros Hcs Hnth. exists vs. split; [reflexivity |].
  assert (Hlen : List.length cs = List.length vs)
    by (apply (cards_of_length _ _ _ Hcs)).
  destruct (nth_error vs i) as [v0 |] eqn:Hv0.
  - destruct (cards_of_nth _ _ _ _ _ Hcs Hv0) as [b0 [Hinc Hnth0]].
    rewrite Hnth in Hnth0. injection Hnth0 as <- <-. auto.
  - apply nth_error_None in Hv0. rewrite <- Hlen in Hv0.
    apply nth_error_None in Hv0. congruence.
Qed.

(** Every turn of the event loop is one of the listed transitions. *)
Lemma step_transition (w : World) (e : Event) : transition w (step w e).
Proof.
  destruct e as [i t | | q | i | key shiftKey t | t | i o t]; cbn [step].
  - destruct (vehicleSelectionStep (st w)) eqn:Hsel; [| apply t_none].
    destruct (cards (st w)) as [cs |] eqn:Hcs; [| apply t_none].
    destruct (nth_error cs i) as [[v [|]] |] eqn:Hnth; try apply t_none.
    destruct (cards_nth_inv _ _ _ _ _ Hcs Hnth) as [vs [Hall [Hv Hinc]]].
    apply (t_select w t v vs i Hsel Hall Hv Hinc).
  - apply t_reset.
  - destruct (vehicleSelectionStep (st w)) eqn:Hsel; [apply t_none |].
    destruct (textareaDisabled (st w)); [apply t_none |].
    apply (t_draft w q Hsel).
  - destruct (vehicleSelectionStep (st w)) eqn:Hsel; [apply t_none |].
    destruct (nth_error quickActions i) as [q |]; [| apply t_none].
    apply (t_draft w q Hsel).
  - destruct (vehicleSelectionStep (st w)) eqn:Hsel; [apply t_none |].
    unfold textareaDisabled.
    destruct (loading (st w)) eqn:Hload; [apply t_none |]. cbn [orb].
    unfold handleKeyPress.
    destruct (String.eqb key "Enter" && negb shiftKey); [| apply t_none].
    rewrite submitted_unfold.
    destruct (ask_cases w t) as [[_ ->] | [Hq Hv]]; [apply t_none |].
    apply (t_submit w t Hsel Hload Hq Hv).
  - destruct (vehicleSelectionStep (st w)) eqn:Hsel; [apply t_none |].
    unfold sendDisabled.
    destruct (loading (st w)) eqn:Hload; [apply t_none |]. cbn [orb].
    destruct (negb (JS.truthy (JStr (JS.trim (question (st w)))))); [apply t_none |].
    rewrite submitted_unfold.
    destruct (ask_cases w t) as [[_ ->] | [Hq Hv]]; [apply t_none |].
    apply (t_submit w t Hsel Hload Hq Hv).
  - destruct (nth_error (inflight w) i) as [k |] eqn:Hk; [| apply t_none].
    destruct (resume k o t) as [acts |] eqn:Hres; [| apply t_none].
    apply (t_settle w i k o t acts Hk Hres).
Qed.

(** What resuming a suspended function does to the world.  The draft, the
    selection and the screen are never touched and no request is issued.
    [fetchVehicles] leaves the transcript and the loading flags alone; [ask]
    either moves on to reading the body, or ends by appending one bot
    message and switching loading off. *)
Lemma settle_effect (w : World) (i : nat) (k : Task) (o : Settled) (t : N)
      (acts : list Action) :
  resume k o t = Some acts ->
  let w' := run (drop_task i w) acts in
  question (st w') = question (st w)
  /\ selectedVehicle (st w') = selectedVehicle (st w)
  /\ vehicleSelectionStep (st w') = vehicleSelectionStep (st w)
  /\ requests w' = requests w
  /\ ((is_ask_task k = false
       /\ messages (st w') = messages (st w)
       /\ loading (st w') = loading (st w)
       /\ loadingStep (st w') = loadingStep (st w)
       /\ filter is_ask_task (inflight w')
          = filter is_ask_task (remove_nth i (inflight w)))
      \/ (k = AskAwaitFetch
          /\ messages (st w') = messages (st w)
          /\ loading (st w') = loading (st w)
          /\ loadingStep (st w') = generatingStep
          /\ allVehicles (st w') = allVehicles (st w)
          /\ availableVehicles (st w') = availableVehicles (st w)
          /\ inflight w' = (remove_nth i (inflight w) ++ [AskAwaitJson])%list)
      \/ (is_ask_task k = true
          /\ (exists m, type m = bot
                        /\ messages (st w') = (messages (st w) ++ [m])%list)
          /\ loading (st w') = false
          /\ loadingStep (st w') = EmptyString
          /\ allVehicles (st w') = allVehicles (st w)
          /\ availableVehicles (st w') = availableVehicles (st w)
          /\ inflight w' = remove_nth i (inflight w))).
Proof.
  intros Hres. cbv zeta.
  destruct k, o; cbn [resume] in Hres; try discriminate;
    injection Hres as <-;
    unfold vehicles_data, vehicles_catch, ask_catch.
  - world_simpl. repeat split. left. repeat split.
  - world_simpl. repeat split. left. repeat split.
    rewrite filter_app. cbn [filter is_ask_task]. apply app_nil_r.
  - world_simpl. repeat split. left. repeat split.
  - destruct (JS.get data "vehicles"), (JS.get data "available_vehicles");
      world_simpl; repeat split; left; repeat split.
  - world_simpl. repeat split. right. right. repeat split.
    eexists. split; [| reflexivity]. reflexivity.
  - generalize ("HTTP error! status: " ++ JS.string_of_N status). intros msg.
    destruct (ok status); world_simpl; repeat split; right.
    + left. repeat split.
    + right. repeat split. eexists. split; [| reflexivity]. reflexivity.
  - world_simpl. repeat split. right. right. repeat split.
    eexists. split; [| reflexivity]. reflexivity.
  - destruct (ask_answer_appends t data) as [m [Hty [-> | ->]]];
      world_simpl; repeat split; right; right; repeat split;
      exists m; split; [exact Hty | reflexivity | exact Hty | reflexivity].
Qed.

(** * Selecting, drafting and sending *)

(** X1. A click on the card of a code that [availableVehicles] includes,
    on the selection screen, opens the chat for that code: the transcript is
    exactly the welcome message for it, and the draft, the catalog, the
    loading flags, the suspended requests and the request log are left as
    they were. *)
Theorem click_available_card (w : World) (i : nat) (t : N) (vs : list jsval) (v : jsval) :
  vehicleSelectionStep (st w) = true ->
  allVehicles (st w) = JArr vs ->
  nth_error vs i = Some v ->
  JS.includes (availableVehicles (st w)) v = Some true ->
  let w' := step w (ClickVehicleCard i t) in
  w' = run w (selectVehicle t v)
  /\ vehicleSelectionStep (st w') = false
  /\ selectedVehicle (st w') = v
  /\ messages (st w') = [welcomeMessage t v]
  /\ question (st w') = question (st w)
  /\ allVehicles (st w') = allVehicles (st w)
  /\ availableVehicles (st w') = availableVehicles (st w)
  /\ loading (st w') = loading (st w)
  /\ loadingStep (st w') = loadingStep (st w)
  /\ inflight w' = inflight w
  /\ requests w' = requests w.
Proof.
  intros Hsel Hall Hv Hinc. cbv zeta.
  assert (Hstep : step w (ClickVehicleCard i t) = run w (selectVehicle t v)).
  { cbn [step]. rewrite Hsel. unfold cards. rewrite Hall.
    destruct (cards_available _ _ _ _ _ Hv Hinc) as [cs [-> ->]]. reflexivity. }
  rewrite Hstep. repeat split.
Qed.

Lemma click_available_card_witness :
  vehicleSelectionStep (st loadedSonataOnly) = true
  /\ allVehicles (st loadedSonataOnly) = JArr [JStr "SONATA"; JStr "TUCSON"]
  /\ nth_error [JStr "SONATA"; JStr "TUCSON"] 0 = Some (JStr "SONATA")
  /\ JS.includes (availableVehicles (st loadedSonataOnly)) (JStr "SONATA") = Some true
  /\ messages (st (step loadedSonataOnly (ClickVehicleCard 0 3)))
     = [welcomeMessage 3 (JStr "SONATA")].
Proof.
  do 4 (split; [reflexivity |]).
  apply (click_available_card loadedSonataOnly 0 3
           [JStr "SONATA"; JStr "TUCSON"] (JStr "SONATA"));
    reflexivity.
Defined.

Lemma submitted_keeps (w : World) (t : N) :
  selectedVehicle (st (submitted w t)) = selectedVehicle (st w)
  /\ vehicleSelectionStep (st (submitted w t)) = vehicleSelectionStep (st w)
  /\ allVehicles (st (submitted w t)) = allVehicles (st w)
  /\ availableVehicles (st (submitted w t)) = availableVehicles (st w)
  /\ console (submitted w t) = console w.
Proof.
  destruct (ask_cases w t) as [[_ ->] | [Hq Hv]]; [repeat split |].
  rewrite (submitted_world w t Hq Hv). repeat split.
Qed.

(** X2. The selected vehicle changes only through the reset or through a
    click, on the selection screen, on a card of the catalog whose code
    [availableVehicles] includes; the new selection is that card's code. *)
Theorem selection_only_through_available_card (w : World) (e : Event) :
  selectedVehicle (st (step w e)) <> selectedVehicle (st w) ->
  e = ClickChangeVehicle
  \/ exists i t vs,
       e = ClickVehicleCard i t
       /\ vehicleSelectionStep (st w) = true
       /\ allVehicles (st w) = JArr vs
       /\ nth_error vs i = Some (selectedVehicle (st (step w e)))
       /\ JS.includes (availableVehicles (st w)) (selectedVehicle (st (step w e)))
          = Some true.
Proof.
  intros Hchg.
  destruct e as [i t | | q | i | key shiftKey t | t | i o t].
  - right. exists i, t. cbn [step] in *.
    destruct (vehicleSelectionStep (st w)) eqn:Hsel; [| congruence].
    destruct (cards (st w)) as [cs |] eqn:Hcs; [| congruence].
    destruct (nth_error cs i) as [[v [|]] |] eqn:Hnth;
      try (exfalso; apply Hchg; reflexivity).
    destruct (cards_nth_inv _ _ _ _ _ Hcs Hnth) as [vs [Hall [Hv Hinc]]].
    exists vs. repeat split; assumption.
  - left. reflexivity.
  - exfalso. apply Hchg. cbn [step].
    destruct (vehicleSelectionStep (st w) || textareaDisabled (st w)); reflexivity.
  - exfalso. apply Hchg. cbn [step].
    destruct (vehicleSelectionStep (st w)); [reflexivity |].
    destruct (nth_error quickActions i); reflexivity.
  - exfalso. apply Hchg. cbn [step].
    destruct (vehicleSelectionStep (st w) || textareaDisabled (st w));
      [reflexivity |].
    unfold handleKeyPress.
    destruct (String.eqb key "Enter" && negb shiftKey); [| reflexivity].
    apply submitted_keeps.
  - exfalso. apply Hchg. cbn [step].
    destruct (vehicleSelectionStep (st w) || sendDisabled (st w));
      [reflexivity |].
    apply submitted_keeps.
  - exfalso. apply Hchg. cbn [step].
    destruct (nth_error (inflight w) i) as [k |]; [| reflexivity].
    destruct (resume k o t) as [acts |] eqn:Hres; [| reflexivity].
    apply (settle_effect w _ _ _ _ _ Hres).
Qed.

Lemma selection_only_through_available_card_witness :
  selectedVehicle (st (step loadedSonataOnly (ClickVehicleCard 0 3)))
    <> selectedVehicle (st loadedSonataOnly)
  /\ (ClickVehicleCard 0 3 = ClickChangeVehicle
      \/ exists i t vs,
           ClickVehicleCard 0 3 = ClickVehicleCard i t
           /\ vehicleSelectionStep (st loadedSonataOnly) = true
           /\ allVehicles (st loadedSonataOnly) = JArr vs
           /\ nth_error vs i
              = Some (selectedVehicle (st (step loadedSonataOnly (ClickVehicleCard 0 3))))
           /\ JS.includes (availableVehicles (st loadedSonataOnly))
                (selectedVehicle (st (step loadedSonataOnly (ClickVehicleCard 0 3))))
              = Some true).
Proof.
  assert (H : selectedVehicle (st (step loadedSonataOnly (ClickVehicleCard 0 3)))
              <> selectedVehicle (st loadedSonataOnly))
    by (vm_compute; discriminate).
  split; [exact H |].
  exact (selection_only_through_available_card loadedSonataOnly
           (ClickVehicleCard 0 3) H).
Defined.

Lemma enter_is_send (w : World) (t : N) :
  step w (KeyPress "Enter" false t) = step w (ClickSend t).
Proof.
  cbn [step]. unfold textareaDisabled, sendDisabled, handleKeyPress.
  destruct (vehicleSelectionStep (st w)); [reflexivity |].
  destruct (loading (st w)); [reflexivity |]. cbn [orb andb negb].
  change (String.eqb "Enter" "Enter") with true. cbv iota.
  destruct (JS.truthy (JStr (JS.trim (question (st w))))) eqn:Hq;
    cbn [negb]; [reflexivity |].
  rewrite ask_rejects; [reflexivity |].
  left. simpl in Hq. apply negb_false_iff in Hq.
  apply String.eqb_eq in Hq. exact Hq.
Qed.

(** X3. In every world the Enter key without Shift does what a click on
    the send button does, and any other key press, or Enter with Shift,
    does nothing. *)
Theorem enter_equals_send (w : World) (t : N) :
  step w (KeyPress "Enter" false t) = step w (ClickSend t)
  /\ (forall key shiftKey,
        String.eqb key "Enter" && negb shiftKey = false ->
        step w (KeyPress key shiftKey t) = w).
Proof.
  split.
  - apply enter_is_send.
  - intros key shiftKey Hkey. cbn [step]. unfold handleKeyPress.
    rewrite Hkey.
    destruct (vehicleSelectionStep (st w) || textareaDisabled (st w));
      reflexivity.
Qed.

Lemma enter_equals_send_witness :
  let w := chattingSonata in
  String.eqb "Enter" "Enter" && negb true = false
  /\ step w (KeyPress "Enter" false 2) = step w (ClickSend 2)
  /\ step w (KeyPress "Enter" true 2) = w
  /\ requests (step w (KeyPress "Enter" false 2))
     = (requests w ++ [askRequest "엔진오일 교환 방법은?" (JStr "SONATA")])%list.
Proof.
  intros w.
  destruct (enter_equals_send w 2) as [Hsend Hother].
  split; [reflexivity |].
  split; [exact Hsend |].
  split; [exact (Hother "Enter" true eq_refl) |].
  rewrite Hsend. vm_compute. reflexivity.
Defined.

(** X4. With a draft that is empty or only white space, or with a
    selected vehicle that is falsy (the empty string, null, 0), neither the
    send button nor the Enter key changes anything: no message is appended
    and no request is issued. *)
Theorem blank_or_no_vehicle_never_sends (w : World) (t : N) (key : string) (shiftKey : bool) :
  JS.trim (question (st w)) = EmptyString
  \/ JS.truthy (selectedVehicle (st w)) = false ->
  step w (ClickSend t) = w
  /\ step w (KeyPress key shiftKey t) = w
  /\ submitted w t = w.
Proof.
  intros Hguard.
  assert (Hask : forall t0, ask t0 (st w) = []) by (intros; apply ask_rejects; exact Hguard).
  repeat split.
  - cbn [step]. rewrite Hask.
    destruct (vehicleSelectionStep (st w) || sendDisabled (st w)); reflexivity.
  - cbn [step]. unfold handleKeyPress. rewrite Hask.
    destruct (vehicleSelectionStep (st w) || textareaDisabled (st w));
      [reflexivity |].
    destruct (String.eqb key "Enter" && negb shiftKey); reflexivity.
  - unfold submitted. rewrite Hask. reflexivity.
Qed.

Lemma blank_or_no_vehicle_never_sends_witness :
  let w := steps mount [ClickVehicleCard 0 1; ChangeQuestion "   "] in
  (JS.trim (question (st w)) = EmptyString
   \/ JS.truthy (selectedVehicle (st w)) = false)
  /\ question (st w) = "   "
  /\ step w (ClickSend 2) = w
  /\ step w (KeyPress "Enter" false 2) = w
  /\ submitted w 2 = w.
Proof.
  intros w.
  assert (H : JS.trim (question (st w)) = EmptyString
              \/ JS.truthy (selectedVehicle (st w)) = false)
    by (left; reflexivity).
  split; [exact H |]. split; [reflexivity |].
  exact (blank_or_no_vehicle_never_sends w 2 "Enter" false H).
Defined.

(** X5. Typing a question, or picking a quick action, and then sending it
    (by the button or by Enter) on an idle chat screen with a vehicle
    selected: the text goes out exactly as it stands in the draft, without
    trimming and whatever its length, as the [q] of one /ask request for
    the selected vehicle and as the content of one appended user message;
    the draft is then empty and the phase is searching.  All four quick
    actions are such questions. *)
Theorem type_then_send (w : World) (q : string) (t : N) :
  vehicleSelectionStep (st w) = false ->
  loading (st w) = false ->
  JS.truthy (selectedVehicle (st w)) = true ->
  JS.trim q <> EmptyString ->
  (let w' := steps w [ChangeQuestion q; ClickSend t] in
   w' = steps w [ChangeQuestion q; KeyPress "Enter" false t]
   /\ requests w' = (requests w ++ [askRequest q (selectedVehicle (st w))])%list
   /\ messages (st w') = (messages (st w) ++ [userMessage t q])%list
   /\ question (st w') = EmptyString
   /\ phase (st w') = Some searching
   /\ inflight w' = (inflight w ++ [AskAwaitFetch])%list)
  /\ (forall i,
        nth_error quickActions i = Some q ->
        steps w [ClickQuickAction i; ClickSend t]
        = steps w [ChangeQuestion q; ClickSend t])
  /\ Forall (fun a => JS.trim a <> EmptyString) quickActions.
Proof.
  intros Hsel Hload Hv Hq.
  assert (Hdraft : step w (ChangeQuestion q) = run w [SetQuestion q]).
  { cbn [step]. unfold textareaDisabled. rewrite Hsel, Hload. reflexivity. }
  assert (Hsend : step (run w [SetQuestion q]) (ClickSend t)
                  = submitted (run w [SetQuestion q]) t).
  { cbn [step]. unfold sendDisabled. world_simpl. rewrite Hsel, Hload.
    apply truthy_trim in Hq. rewrite Hq. reflexivity. }
  split; [| split].
  - cbv zeta. unfold steps. cbn [fold_left].
    rewrite enter_is_send.
    split; [reflexivity |].
    rewrite Hdraft, Hsend.
    rewrite (submitted_world (run w [SetQuestion q]) t); [| exact Hq | exact Hv].
    repeat split.
  - intros i Hi. unfold steps. cbn [fold_left]. f_equal.
    rewrite Hdraft. cbn [step]. rewrite Hsel, Hi. reflexivity.
  - repeat constructor; vm_compute; discriminate.
Qed.

Lemma type_then_send_witness :
  let w := step mount (ClickVehicleCard 0 1) in
  vehicleSelectionStep (st w) = false
  /\ loading (st w) = false
  /\ JS.truthy (selectedVehicle (st w)) = true
  /\ JS.trim "  hi  " <> EmptyString
  /\ requests (steps w [ChangeQuestion "  hi  "; ClickSend 2])
     = (requests w ++ [askRequest "  hi  " (selectedVehicle (st w))])%list
  /\ messages (st (steps w [ChangeQuestion "  hi  "; ClickSend 2]))
     = (messages (st w) ++ [userMessage 2 "  hi  "])%list.
Proof.
  intros w.
  assert (Hq : JS.trim "  hi  " <> EmptyString) by (vm_compute; discriminate).
  do 3 (split; [reflexivity |]). split; [exact Hq |].
  destruct (type_then_send w "  hi  " 2 eq_refl eq_refl eq_refl Hq)
    as [(_ & Hreq & Hmsg & _) _].
  split; [exact Hreq | exact Hmsg].
Defined.

(** X6. The reset absorbs what came before it: a card click, an earlier
    reset, typing or a quick action followed by the vehicle change leaves
    the same world as the vehicle change alone. *)
Theorem reset_absorbs (w : World) (e : Event) :
  local_event e = true ->
  steps w [e; ClickChangeVehicle] = step w ClickChangeVehicle.
Proof.
  intros He. unfold steps. cbn [fold_left].
  destruct e as [i t | | q | i | key shiftKey t | t | i o t];
    try discriminate; cbn [step].
  - destruct (vehicleSelectionStep (st w)); [| reflexivity].
    destruct (cards (st w)) as [cs |]; [| reflexivity].
    destruct (nth_error cs i) as [[v [|]] |]; reflexivity.
  - reflexivity.
  - destruct (vehicleSelectionStep (st w) || textareaDisabled (st w)); reflexivity.
  - destruct (vehicleSelectionStep (st w)); [reflexivity |].
    destruct (nth_error quickActions i); reflexivity.
Qed.

Lemma reset_absorbs_witness :
  local_event (ClickVehicleCard 0 1) = true
  /\ steps mount [ClickVehicleCard 0 1; ClickChangeVehicle]
     = step mount ClickChangeVehicle.
Proof.
  split; [reflexivity |].
  apply (reset_absorbs mount (ClickVehicleCard 0 1)). reflexivity.
Defined.

(** * Loading the catalog *)

Lemma vehicles_response (w : World) (i : nat) (status t : N) :
  nth_error (inflight w) i = Some VehiclesAwaitFetch ->
  step w (Settle i (Response status) t)
  = {| st := st w;
       inflight := remove_nth i (inflight w) ++ [VehiclesAwaitJson];
       requests := requests w;
       console := console w |}.
Proof. intros Hk. unfold step. rewrite Hk. reflexivity. Qed.

(** X7. [fetchVehicles] does not look at the status of the response: for
    any status, 2xx or not, a body that parses to anything but null
    replaces both catalog lists by its [vehicles] and [available_vehicles]
    values, whatever these are, and touches nothing else: the other hooks,
    the request log and the console stay as they were. *)
Theorem fetchVehicles_replaces_catalog
        (w : World) (i : nat) (status t t' : N) (data vs avs : jsval) :
  nth_error (inflight w) i = Some VehiclesAwaitFetch ->
  JS.get data "vehicles" = Some vs ->
  JS.get data "available_vehicles" = Some avs ->
  let j := List.length (remove_nth i (inflight w)) in
  let w' := steps w [Settle i (Response status) t; Settle j (Json data) t'] in
  allVehicles (st w') = vs
  /\ availableVehicles (st w') = avs
  /\ question (st w') = question (st w)
  /\ selectedVehicle (st w') = selectedVehicle (st w)
  /\ vehicleSelectionStep (st w') = vehicleSelectionStep (st w)
  /\ messages (st w') = messages (st w)
  /\ loading (st w') = loading (st w)
  /\ loadingStep (st w') = loadingStep (st w)
  /\ inflight w' = remove_nth i (inflight w)
  /\ requests w' = requests w
  /\ console w' = console w.
Proof.
  intros Hk Hvs Havs j w'. subst j w'.
  unfold steps. cbn [fold_left].
  rewrite (vehicles_response w i status t Hk).
  erewrite settle_last by reflexivity.
  unfold vehicles_data. rewrite Hvs, Havs. repeat split.
Qed.

Lemma fetchVehicles_replaces_catalog_witness :
  nth_error (inflight mount) 0 = Some VehiclesAwaitFetch
  /\ JS.get sonataOnly "vehicles" = Some (JArr [JStr "SONATA"; JStr "TUCSON"])
  /\ JS.get sonataOnly "available_vehicles" = Some (JArr [JStr "SONATA"])
  /\ allVehicles (st (steps mount [Settle 0 (Response 503) 1; Settle 0 (Json sonataOnly) 2]))
     = JArr [JStr "SONATA"; JStr "TUCSON"]
  /\ availableVehicles
       (st (steps mount [Settle 0 (Response 503) 1; Settle 0 (Json sonataOnly) 2]))
     = JArr [JStr "SONATA"].
Proof.
  do 3 (split; [reflexivity |]).
  destruct (fetchVehicles_replaces_catalog mount 0 503 1 2 sonataOnly
              (JArr [JStr "SONATA"; JStr "TUCSON"]) (JArr [JStr "SONATA"])
              eq_refl eq_refl eq_refl) as (Hall & Hav & _).
  split; [exact Hall | exact Hav].
Defined.

(** X8. A /vehicles body that parses but has no [available_vehicles]
    (or has one that is neither a list nor a string) is taken as it is:
    [availableVehicles] becomes that value, the built-in catalog is gone,
    and from then on no card click selects anything. *)
Theorem catalog_without_available_blocks_selection
        (w : World) (j : nat) (t : N) (data avs : jsval) :
  nth_error (inflight w) j = Some VehiclesAwaitJson ->
  JS.get data "available_vehicles" = Some avs ->
  JS.includes avs JNull = None ->
  let w' := step w (Settle j (Json data) t) in
  availableVehicles (st w') = avs
  /\ forall i t', step w' (ClickVehicleCard i t') = w'.
Proof.
  intros Hk Havs Hinc. cbv zeta.
  assert (Hvs : exists vs, JS.get data "vehicles" = Some vs)
    by (destruct data; try discriminate; eexists; reflexivity).
  destruct Hvs as [vs Hvs].
  assert (Hstep : step w (Settle j (Json data) t)
                  = run (drop_task j w) [SetAllVehicles vs; SetAvailableVehicles avs]).
  { unfold step. rewrite Hk. cbn [resume]. unfold vehicles_data.
    rewrite Hvs, Havs. reflexivity. }
  rewrite Hstep. clear Hstep. world_simpl.
  split; [reflexivity |].
  intros i t'. cbn [step]. world_simpl.
  destruct (vehicleSelectionStep (st w)); [| reflexivity].
  unfold cards. world_simpl.
  destruct vs as [| | | | | items |]; try reflexivity.
  destruct items as [| v0 items].
  - cbn [cards_of]. destruct i; reflexivity.
  - cbn [cards_of].
    assert (Hnone : JS.includes avs v0 = None)
      by (destruct avs; try discriminate; reflexivity).
    rewrite Hnone. reflexivity.
Qed.

Lemma catalog_without_available_blocks_selection_witness :
  let w := step mount (Settle 0 (Response 200) 1) in
  let data := JObj [("vehicles", JArr [JStr "SONATA"])] in
  nth_error (inflight w) 0 = Some VehiclesAwaitJson
  /\ JS.get data "available_vehicles" = Some JUndefined
  /\ JS.includes JUndefined JNull = None
  /\ availableVehicles (st (step w (Settle 0 (Json data) 2))) = JUndefined
  /\ step (step w (Settle 0 (Json data) 2)) (ClickVehicleCard 0 3)
     = step w (Settle 0 (Json data) 2).
Proof.
  intros w data.
  do 3 (split; [reflexivity |]).
  destruct (catalog_without_available_blocks_selection w 0 2 data JUndefined
              eq_refl eq_refl eq_refl) as [Hav Hclick].
  split; [exact Hav | exact (Hclick 0%nat 3%N)].
Defined.

(** * The connectivity check *)

Lemma health_run_done (os : list Settled) : health_run None os = [].
Proof. destruct os; reflexivity. Qed.

Lemma health_run_short (os : list Settled) :
  forall k, (List.length (health_run k os) <= 1)%nat.
Proof.
  induction os as [| o os IH]; intros k; simpl; [lia |].
  destruct k as [stage |]; [| simpl; lia].
  destruct stage, o; simpl; rewrite ?health_run_done; simpl;
    try lia; apply IH.
Qed.

(** X9. The connectivity check writes at most one line to the console,
    whatever the backend does and in whatever order settlements arrive.  It
    does not look at the status either: a response of any status whose body
    parses is reported as a successful connection, with the parsed body;
    only a rejected fetch or an unparseable body is reported as a failure. *)
Theorem healthCheck_reports_once (os : list Settled) :
  (List.length (healthCheck os) <= 1)%nat
  /\ (forall status data,
        healthCheck [Response status; Json data]
        = [LogLine "백엔드 연결 성공:" data])
  /\ (forall e, healthCheck [Rejected e] = [ErrorLine "백엔드 연결 실패:" e])
  /\ (forall status e,
        healthCheck [Response status; Rejected e]
        = [ErrorLine "백엔드 연결 실패:" e]).
Proof.
  split; [apply health_run_short |]. repeat split.
Qed.

(** * What holds in every reachable world *)

Lemma reachable_transition_ind (P : World -> Prop) :
  P mount ->
  (forall w w', reachable w -> P w -> transition w w' -> P w') ->
  forall w, reachable w -> P w.
Proof.
  intros Hmount Hstep w Hw. induction Hw as [| w e Hw IH].
  - exact Hmount.
  - apply (Hstep w (step w e) Hw IH). apply step_transition.
Qed.

Lemma filter_remove_nth_false {A : Type} (p : A -> bool) (l : list A) :
  forall i k,
    nth_error l i = Some k -> p k = false ->
    filter p (remove_nth i l) = filter p l.
Proof.
  induction l as [| x l IH]; intros i k Hk Hp.
  - destruct i; discriminate.
  - destruct i as [| j]; simpl in Hk.
    + injection Hk as ->. simpl. rewrite Hp. reflexivity.
    + simpl. rewrite (IH j k Hk Hp). reflexivity.
Qed.

Lemma filter_nth_in {A : Type} (p : A -> bool) (l : list A) (i : nat) (k : A) :
  nth_error l i = Some k -> p k = true -> In k (filter p l).
Proof.
  intros Hk Hp. apply filter_In. split; [| exact Hp].
  eapply nth_error_In. exact Hk.
Qed.

Lemma filter_remove_nth_single {A : Type} (p : A -> bool) (l : list A) (i : nat) (k x : A) :
  nth_error l i = Some k -> p k = true -> filter p l = [x] ->
  k = x /\ filter p (remove_nth i l) = [].
Proof.
  intros Hk Hp Hone.
  pose proof (filter_nth_in p l i k Hk Hp) as Hin. rewrite Hone in Hin.
  destruct Hin as [<- | []]. split; [reflexivity |].
  pose proof (count_remove_nth p l i x Hk) as Hcount.
  rewrite Hone, Hp in Hcount. simpl in Hcount.
  destruct (filter p (remove_nth i l)); [reflexivity | simpl in Hcount; lia].
Qed.

(** X10. On the selection screen of any reachable world the draft is
    empty, no vehicle is selected, and the transcript holds at most one
    message, which can only be a bot message (the late result of a request
    sent before the reset). *)
Theorem selection_screen_is_clean (w : World) :
  reachable w ->
  vehicleSelectionStep (st w) = true ->
  question (st w) = EmptyString
  /\ selectedVehicle (st w) = JStr EmptyString
  /\ (List.length (messages (st w)) <= 1)%nat
  /\ Forall (fun m => type m = bot) (messages (st w)).
Proof.
  intros Hw Hsel.
  assert (Hlen : (List.length (messages (st w)) <= 1)%nat).
  { destruct (reachable_consistent w Hw) as [_ H2]. specialize (H2 Hsel). lia. }
  enough (H : question (st w) = EmptyString
              /\ selectedVehicle (st w) = JStr EmptyString
              /\ Forall (fun m => type m = bot) (messages (st w))) by tauto.
  clear Hlen. revert Hsel. revert w Hw.
  apply (reachable_transition_ind
           (fun w => vehicleSelectionStep (st w) = true ->
                     question (st w) = EmptyString
                     /\ selectedVehicle (st w) = JStr EmptyString
                     /\ Forall (fun m => type m = bot) (messages (st w)))).
  - intros _. repeat split. constructor.
  - intros w w' _ IH Htr.
    destruct Htr as [| t v vs i _ _ _ _ | | q Hs | t Hs _ Hq Hv | i k o t acts Hk Hres].
    + exact IH.
    + discriminate.
    + intros _. repeat split. constructor.
    + world_simpl. congruence.
    + rewrite (submitted_world w t Hq Hv). world_simpl. congruence.
    + destruct (settle_effect w i k o t acts Hres)
        as (Hqn & Hsv & Hvs & _ & Hcases).
      rewrite Hqn, Hsv, Hvs. intros Hsel.
      destruct (IH Hsel) as (IHq & IHv & IHm).
      split; [exact IHq |]. split; [exact IHv |].
      destruct Hcases as [(_ & -> & _) | [(_ & -> & _) | (_ & [m [Hty ->]] & _)]];
        try exact IHm.
      apply Forall_app. split; [exact IHm |]. constructor; [exact Hty | constructor].
Qed.

Lemma selection_screen_is_clean_witness :
  let w := steps chattingSonata
             [ ClickSend 2; ClickChangeVehicle; Settle 1 (Rejected "Failed to fetch") 3 ] in
  reachable w
  /\ vehicleSelectionStep (st w) = true
  /\ question (st w) = EmptyString
  /\ selectedVehicle (st w) = JStr EmptyString
  /\ (List.length (messages (st w)) <= 1)%nat
  /\ Forall (fun m => type m = bot) (messages (st w)).
Proof.
  intros w.
  assert (Hw : reachable w).
  { unfold w, chattingSonata. do 2 apply reachable_steps. apply reach_mount. }
  split; [exact Hw |]. split; [reflexivity |].
  exact (selection_screen_is_clean w Hw eq_refl).
Defined.

(** X11. On the chat screen of any reachable world the transcript begins
    with the welcome message of the vehicle that is selected. *)
Theorem chat_begins_with_welcome (w : World) :
  reachable w ->
  vehicleSelectionStep (st w) = false ->
  exists t rest,
    messages (st w) = welcomeMessage t (selectedVehicle (st w)) :: rest.
Proof.
  revert w.
  apply (reachable_transition_ind
           (fun w => vehicleSelectionStep (st w) = false ->
                     exists t rest,
                       messages (st w)
                       = welcomeMessage t (selectedVehicle (st w)) :: rest)).
  - discriminate.
  - intros w w' _ IH Htr.
    destruct Htr as [| t v vs i _ _ _ _ | | q Hs | t Hs _ Hq Hv | i k o t acts Hk Hres].
    + exact IH.
    + intros _. exists t, []. reflexivity.
    + discriminate.
    + intros _. destruct (IH Hs) as [t [rest Hm]]. exists t, rest. exact Hm.
    + intros _. destruct (IH Hs) as [t0 [rest Hm]].
      rewrite (submitted_world w t Hq Hv). world_simpl.
      exists t0, (rest ++ [userMessage t (question (st w))])%list.
      rewrite Hm. reflexivity.
    + destruct (settle_effect w i k o t acts Hres)
        as (_ & Hsv & Hvs & _ & Hcases).
      rewrite Hsv, Hvs. intros Hsel. destruct (IH Hsel) as [t0 [rest Hm]].
      destruct Hcases as [(_ & -> & _) | [(_ & -> & _) | (_ & [m [_ ->]] & _)]].
      * exists t0, rest. exact Hm.
      * exists t0, rest. exact Hm.
      * exists t0, (rest ++ [m])%list. rewrite Hm. reflexivity.
Qed.

Lemma chat_begins_with_welcome_witness :
  reachable chattingSonata
  /\ vehicleSelectionStep (st chattingSonata) = false
  /\ exists t rest,
       messages (st chattingSonata)
       = welcomeMessage t (selectedVehicle (st chattingSonata)) :: rest.
Proof.
  assert (Hw : reachable chattingSonata).
  { unfold chattingSonata. apply reachable_steps. apply reach_mount. }
  split; [exact Hw |]. split; [reflexivity |].
  exact (chat_begins_with_welcome chattingSonata Hw eq_refl).
Defined.

(** X12. Whenever a reachable world is not loading, its transcript does
    not end with a user message: every question shown has its bot message
    after it, or has been cleared by a reset. *)
Theorem idle_transcript_ends_with_bot (w : World) :
  reachable w ->
  loading (st w) = false ->
  forall pre m, messages (st w) = (pre ++ [m])%list -> type m = bot.
Proof.
  revert w.
  apply (reachable_transition_ind
           (fun w => loading (st w) = false ->
                     forall pre m, messages (st w) = (pre ++ [m])%list ->
                                   type m = bot)).
  - intros _ pre m Hm. destruct pre; discriminate.
  - intros w w' _ IH Htr.
    destruct Htr as [| t v vs i _ _ _ _ | | q Hs | t Hs _ Hq Hv | i k o t acts Hk Hres].
    + exact IH.
    + intros _ pre m Hm.
      change (messages (st (run w (selectVehicle t v))))
        with [welcomeMessage t v] in Hm.
      destruct pre as [| x pre]; [injection Hm as <-; reflexivity |].
      destruct pre; discriminate.
    + intros _ pre m Hm. destruct pre; discriminate.
    + exact IH.
    + rewrite (submitted_world w t Hq Hv). discriminate.
    + destruct (settle_effect w i k o t acts Hres) as (_ & _ & _ & _ & Hcases).
      destruct Hcases
        as [(_ & -> & -> & _) | [(_ & -> & -> & _) | (_ & [m0 [Hty ->]] & _)]];
        try exact IH.
      intros _ pre m Hm. apply app_inj_tail in Hm as [_ <-]. exact Hty.
Qed.

Lemma idle_transcript_ends_with_bot_witness :
  let w := steps chattingSonata [ClickSend 2; Settle 1 (Response 500) 3] in
  let pre := [welcomeMessage 1 (JStr "SONATA"); userMessage 2 "엔진오일 교환 방법은?"] in
  let m := errorMessage 3 ("HTTP error! status: " ++ JS.string_of_N 500) in
  reachable w
  /\ loading (st w) = false
  /\ messages (st w) = (pre ++ [m])%list
  /\ type m = bot.
Proof.
  intros w pre m.
  assert (Hw : reachable w).
  { unfold w, chattingSonata. do 2 apply reachable_steps. apply reach_mount. }
  assert (Hm : messages (st w) = (pre ++ [m])%list) by reflexivity.
  split; [exact Hw |]. split; [reflexivity |]. split; [exact Hm |].
  exact (idle_transcript_ends_with_bot w Hw eq_refl pre m Hm).
Defined.

(** X13. In every reachable world the loading flags and the suspended
    [ask] agree: either nothing is loading, the step text is empty and no
    [ask] is suspended; or the phase is searching and exactly one [ask]
    waits for its response; or the phase is generating and exactly one [ask]
    waits for the body.  So the spinner never falls back to its default
    text. *)
Theorem phase_tracks_request (w : World) :
  reachable w ->
  ((loading (st w) = false /\ loadingStep (st w) = EmptyString
    /\ phase (st w) = Some idle
    /\ filter is_ask_task (inflight w) = [])
   \/ (loading (st w) = true /\ loadingStep (st w) = searchingStep
       /\ phase (st w) = Some searching
       /\ filter is_ask_task (inflight w) = [AskAwaitFetch])
   \/ (loading (st w) = true /\ loadingStep (st w) = generatingStep
       /\ phase (st w) = Some generating
       /\ filter is_ask_task (inflight w) = [AskAwaitJson]))
  /\ loadingIndicator (st w) <> Some loadingFallback.
Proof.
  intros Hw.
  enough (H : (loading (st w) = false /\ loadingStep (st w) = EmptyString
               /\ filter is_ask_task (inflight w) = [])
              \/ (loading (st w) = true /\ loadingStep (st w) = searchingStep
                  /\ filter is_ask_task (inflight w) = [AskAwaitFetch])
              \/ (loading (st w) = true /\ loadingStep (st w) = generatingStep
                  /\ filter is_ask_task (inflight w) = [AskAwaitJson])).
  { unfold phase, loadingIndicator.
    destruct H as [(-> & -> & Hf) | [(-> & -> & Hf) | (-> & -> & Hf)]].
    - split; [left; repeat split; exact Hf |].
      destruct (vehicleSelectionStep (st w)); discriminate.
    - split; [right; left; repeat split; exact Hf |].
      destruct (vehicleSelectionStep (st w)); [discriminate |].
      vm_compute. discriminate.
    - split; [right; right; repeat split; exact Hf |].
      destruct (vehicleSelectionStep (st w)); [discriminate |].
      vm_compute. discriminate. }
  revert w Hw.
  apply (reachable_transition_ind
           (fun w =>
              (loading (st w) = false /\ loadingStep (st w) = EmptyString
               /\ filter is_ask_task (inflight w) = [])
              \/ (loading (st w) = true /\ loadingStep (st w) = searchingStep
                  /\ filter is_ask_task (inflight w) = [AskAwaitFetch])
              \/ (loading (st w) = true /\ loadingStep (st w) = generatingStep
                  /\ filter is_ask_task (inflight w) = [AskAwaitJson]))).
  - left. repeat split.
  - intros w w' _ IH Htr.
    destruct Htr as [| t v vs i _ _ _ _ | | q Hs | t Hs Hl Hq Hv | i k o t acts Hk Hres].
    + exact IH.
    + exact IH.
    + exact IH.
    + exact IH.
    + rewrite (submitted_world w t Hq Hv). world_simpl.
      destruct IH as [(_ & _ & Hf) | [(Hl' & _) | (Hl' & _)]]; try congruence.
      right. left. repeat split.
      rewrite filter_app, Hf. reflexivity.
    + destruct (settle_effect w i k o t acts Hres) as (_ & _ & _ & _ & Hcases).
      destruct Hcases
        as [(Hp & _ & -> & -> & ->)
           | [(-> & _ & -> & -> & _ & _ & ->)
             | (Hp & _ & -> & -> & _ & _ & ->)]].
      * rewrite (filter_remove_nth_false is_ask_task _ i k Hk Hp). exact IH.
      * right. right. rewrite filter_app. cbn [filter is_ask_task].
        destruct IH as [(_ & _ & Hf) | [(Hl & _ & Hf) | (_ & _ & Hf)]].
        -- pose proof (filter_nth_in is_ask_task _ i _ Hk eq_refl) as Hin.
           rewrite Hf in Hin. destruct Hin.
        -- destruct (filter_remove_nth_single is_ask_task _ i _ _ Hk eq_refl Hf)
             as [_ ->].
           repeat split. exact Hl.
        -- destruct (filter_remove_nth_single is_ask_task _ i _ _ Hk eq_refl Hf)
             as [Hne _]. discriminate.
      * left.
        destruct IH as [(_ & _ & Hf) | [(_ & _ & Hf) | (_ & _ & Hf)]].
        -- pose proof (filter_nth_in is_ask_task _ i _ Hk Hp) as Hin.
           rewrite Hf in Hin. destruct Hin.
        -- destruct (filter_remove_nth_single is_ask_task _ i _ _ Hk Hp Hf)
             as [_ ->]. repeat split.
        -- destruct (filter_remove_nth_single is_ask_task _ i _ _ Hk Hp Hf)
             as [_ ->]. repeat split.
Qed.

Lemma phase_tracks_request_witness :
  let w := steps chattingSonata [ClickSend 2; Settle 1 (Response 200) 3] in
  reachable w
  /\ phase (st w) = Some generating
  /\ filter is_ask_task (inflight w) = [AskAwaitJson]
  /\ loadingIndicator (st w) = Some generatingStep
  /\ loadingIndicator (st w) <> Some loadingFallback.
Proof.
  intros w.
  assert (Hw : reachable w).
  { unfold w, chattingSonata. do 2 apply reachable_steps. apply reach_mount. }
  split; [exact Hw |]. do 3 (split; [reflexivity |]).
  exact (proj2 (phase_tracks_request w Hw)).
Defined.

(** X14. The requests of any reachable world are the one /vehicles
    request made at mount, first, followed only by /ask requests, each
    carrying a question that is not blank and a vehicle that is truthy.  The
    catalog is never requested again, whatever became of the first
    request. *)
Theorem requests_are_one_catalog_then_asks (w : World) :
  reachable w ->
  exists asks,
    requests w = vehiclesRequest :: asks
    /\ Forall (fun r => exists q v,
                   r = askRequest q v
                   /\ JS.trim q <> EmptyString
                   /\ JS.truthy v = true) asks
    /\ asks_issued w = List.length asks.
Proof.
  revert w.
  apply (reachable_transition_ind
           (fun w =>
              exists asks,
                requests w = vehiclesRequest :: asks
                /\ Forall (fun r => exists q v,
                               r = askRequest q v
                               /\ JS.trim q <> EmptyString
                               /\ JS.truthy v = true) asks
                /\ asks_issued w = List.length asks)).
  - exists []. repeat split. constructor.
  - intros w w' _ IH Htr.
    destruct Htr as [| t v vs i _ _ _ _ | | q Hs | t Hs Hl Hq Hv | i k o t acts Hk Hres].
    + exact IH.
    + exact IH.
    + exact IH.
    + exact IH.
    + destruct IH as [asks (Hreq & Hall & Hcount)].
      exists (asks ++ [askRequest (question (st w)) (selectedVehicle (st w))])%list.
      rewrite (submitted_world w t Hq Hv).
      unfold asks_issued in *. world_simpl. rewrite Hreq in *.
      split; [reflexivity |]. split.
      * apply Forall_app. split; [exact Hall |].
        constructor; [| constructor]. eauto.
      * change (vehiclesRequest :: asks ++ [askRequest (question (st w)) (selectedVehicle (st w))])%list
          with ((vehiclesRequest :: asks) ++ [askRequest (question (st w)) (selectedVehicle (st w))])%list.
        rewrite count_snoc, is_ask_request_ask, Hcount, length_app. reflexivity.
    + destruct (settle_effect w i k o t acts Hres) as (_ & _ & _ & Hreq & _).
      destruct IH as [asks (IHreq & Hall & Hcount)].
      exists asks. unfold asks_issued in *. rewrite Hreq.
      repeat split; assumption.
Qed.

Lemma requests_are_one_catalog_then_asks_witness :
  let w := steps chattingSonata [ClickSend 2; Settle 0 (Rejected "Failed to fetch") 3] in
  reachable w
  /\ requests w = [vehiclesRequest; askRequest "엔진오일 교환 방법은?" (JStr "SONATA")]
  /\ exists asks,
       requests w = vehiclesRequest :: asks
       /\ asks_issued w = List.length asks.
Proof.
  intros w.
  assert (Hw : reachable w).
  { unfold w, chattingSonata. do 2 apply reachable_steps. apply reach_mount. }
  split; [exact Hw |]. split; [reflexivity |].
  destruct (requests_are_one_catalog_then_asks w Hw) as [asks (Hreq & _ & Hcount)].
  exists asks. split; [exact Hreq | exact Hcount].
Defined.

(** X15. Every user message in the transcript of a reachable world holds
    a string that is not blank, and carries no sources. *)
Theorem user_messages_are_questions (w : World) :
  reachable w ->
  Forall (fun m => type m = user ->
                   exists q, content m = JStr q
                             /\ JS.trim q <> EmptyString
                             /\ sources m = JUndefined)
         (messages (st w)).
Proof.
  revert w.
  apply (reachable_transition_ind
           (fun w =>
              Forall (fun m => type m = user ->
                               exists q, content m = JStr q
                                         /\ JS.trim q <> EmptyString
                                         /\ sources m = JUndefined)
                     (messages (st w)))).
  - constructor.
  - intros w w' _ IH Htr.
    destruct Htr as [| t v vs i _ _ _ _ | | q Hs | t Hs Hl Hq Hv | i k o t acts Hk Hres].
    + exact IH.
    + constructor; [discriminate | constructor].
    + constructor.
    + exact IH.
    + rewrite (submitted_world w t Hq Hv). world_simpl.
      apply Forall_app. split; [exact IH |].
      constructor; [| constructor]. intros _.
      exists (question (st w)). repeat split. exact Hq.
    + destruct (settle_effect w i k o t acts Hres) as (_ & _ & _ & _ & Hcases).
      destruct Hcases as [(_ & -> & _) | [(_ & -> & _) | (_ & [m [Hty ->]] & _)]];
        try exact IH.
      apply Forall_app. split; [exact IH |].
      constructor; [| constructor]. intros Hu. congruence.
Qed.

Lemma user_messages_are_questions_witness :
  let w := step chattingSonata (ClickSend 2) in
  reachable w
  /\ map type (messages (st w)) = [bot; user]
  /\ Forall (fun m => type m = user ->
                      exists q, content m = JStr q
                                /\ JS.trim q <> EmptyString
                                /\ sources m = JUndefined)
            (messages (st w)).
Proof.
  intros w.
  assert (Hw : reachable w).
  { unfold w, chattingSonata. apply reach_step. apply reachable_steps.
    apply reach_mount. }
  split; [exact Hw |]. split; [reflexivity |].
  exact (user_messages_are_questions w Hw).
Defined.

(** X16. The catalog lists change only when the body of the /vehicles
    response has been parsed: no user event and no step of [ask] touches
    them. *)
Theorem catalog_changes_only_on_vehicles_body (w : World) (e : Event) :
  allVehicles (st (step w e)) <> allVehicles (st w)
  \/ availableVehicles (st (step w e)) <> availableVehicles (st w) ->
  exists i data t,
    e = Settle i (Json data) t
    /\ nth_error (inflight w) i = Some VehiclesAwaitJson.
Proof.
  intros Hchg.
  assert (Hsame : forall w', step w e = w' ->
                             allVehicles (st w') = allVehicles (st w) ->
                             availableVehicles (st w') = availableVehicles (st w) ->
                             False).
  { intros w' Heq Ha Hb. rewrite Heq in Hchg. tauto. }
  destruct e as [i t | | q | i | key shiftKey t | t | i o t].
  - exfalso. cbn [step] in Hsame.
    destruct (vehicleSelectionStep (st w)); [| eapply Hsame; reflexivity].
    destruct (cards (st w)) as [cs |]; [| eapply Hsame; reflexivity].
    destruct (nth_error cs i) as [[v [|]] |]; eapply Hsame; reflexivity.
  - exfalso. eapply Hsame; reflexivity.
  - exfalso. cbn [step] in Hsame.
    destruct (vehicleSelectionStep (st w) || textareaDisabled (st w));
      eapply Hsame; reflexivity.
  - exfalso. cbn [step] in Hsame.
    destruct (vehicleSelectionStep (st w)); [eapply Hsame; reflexivity |].
    destruct (nth_error quickActions i); eapply Hsame; reflexivity.
  - exfalso. cbn [step] in Hsame.
    destruct (vehicleSelectionStep (st w) || textareaDisabled (st w));
      [eapply Hsame; reflexivity |].
    unfold handleKeyPress in Hsame.
    destruct (String.eqb key "Enter" && negb shiftKey);
      [| eapply Hsame; reflexivity].
    eapply Hsame; [reflexivity | |]; apply (submitted_keeps w t).
  - exfalso. cbn [step] in Hsame.
    destruct (vehicleSelectionStep (st w) || sendDisabled (st w));
      [eapply Hsame; reflexivity |].
    eapply Hsame; [reflexivity | |]; apply (submitted_keeps w t).
  - cbn [step] in Hsame.
    destruct (nth_error (inflight w) i) as [k |] eqn:Hk;
      [| exfalso; eapply Hsame; reflexivity].
    destruct k, o; cbn [resume] in Hsame;
      try (exfalso; eapply Hsame; reflexivity).
    + exists i, data, t. split; [reflexivity | exact Hk].
    + exfalso. destruct (ok status); eapply Hsame; reflexivity.
    + exfalso.
      destruct (ask_answer_appends t data) as [m [_ [Heq | Heq]]];
        rewrite Heq in Hsame; eapply Hsame; reflexivity.
Qed.

Lemma catalog_changes_only_on_vehicles_body_witness :
  let w := step mount (Settle 0 (Response 200) 1) in
  (allVehicles (st (step w (Settle 0 (Json sonataOnly) 2))) <> allVehicles (st w)
   \/ availableVehicles (st (step w (Settle 0 (Json sonataOnly) 2)))
      <> availableVehicles (st w))
  /\ exists i data t,
       Settle 0 (Json sonataOnly) 2 = Settle i (Json data) t
       /\ nth_error (inflight w) i = Some VehiclesAwaitJson.
Proof.
  intros w.
  assert (H : allVehicles (st (step w (Settle 0 (Json sonataOnly) 2)))
              <> allVehicles (st w)
              \/ availableVehicles (st (step w (Settle 0 (Json sonataOnly) 2)))
                 <> availableVehicles (st w))
    by (left; vm_compute; discriminate).
  split; [exact H |].
  exact (catalog_changes_only_on_vehicles_body w (Settle 0 (Json sonataOnly) 2) H).
Defined.

(** * Order of the transcript *)

Lemma step_appends (w : World) (e : Event) :
  chat_event e = true ->
  exists suffix,
    messages (st (step w e)) = (messages (st w) ++ suffix)%list
    /\ (List.length suffix <= 1)%nat.
Proof.
  intros He.
  assert (Hnone : exists suffix,
             messages (st w) = (messages (st w) ++ suffix)%list
             /\ (List.length suffix <= 1)%nat)
    by (exists []; rewrite app_nil_r; split; [reflexivity | simpl; lia]).
  assert (Hsub : forall t, exists suffix,
             messages (st (submitted w t)) = (messages (st w) ++ suffix)%list
             /\ (List.length suffix <= 1)%nat).
  { intros t. destruct (ask_cases w t) as [[_ ->] | [Hq Hv]]; [exact Hnone |].
    rewrite (submitted_world w t Hq Hv). world_simpl.
    eexists. split; [reflexivity | simpl; lia]. }
  destruct e as [i t | | q | i | key shiftKey t | t | i o t];
    try discriminate; cbn [step].
  - destruct (vehicleSelectionStep (st w) || textareaDisabled (st w)); exact Hnone.
  - destruct (vehicleSelectionStep (st w)); [exact Hnone |].
    destruct (nth_error quickActions i); exact Hnone.
  - destruct (vehicleSelectionStep (st w) || textareaDisabled (st w));
      [exact Hnone |].
    unfold handleKeyPress.
    destruct (String.eqb key "Enter" && negb shiftKey); [| exact Hnone].
    apply (Hsub t).
  - destruct (vehicleSelectionStep (st w) || sendDisabled (st w));
      [exact Hnone |].
    apply (Hsub t).
  - destruct (nth_error (inflight w) i) as [k |] eqn:Hk; [| exact Hnone].
    destruct (resume k o t) as [acts |] eqn:Hres; [| exact Hnone].
    destruct (settle_effect w i k o t acts Hres) as (_ & _ & _ & _ & Hcases).
    destruct Hcases as [(_ & -> & _) | [(_ & -> & _) | (_ & [m [_ ->]] & _)]];
      try exact Hnone.
    exists [m]. split; [reflexivity | simpl; lia].
Qed.

(** X17. The transcript is append-only between resets and selections:
    over any run of chat events (typing, quick actions, key presses, sends
    and settlements) the messages already shown stay where they are,
    unchanged and in the same order, and new ones are added at the end, at
    most one per event. *)
Theorem transcript_is_append_only (es : list Event) (w : World) :
  forallb chat_event es = true ->
  exists suffix,
    messages (st (steps w es)) = (messages (st w) ++ suffix)%list
    /\ (List.length suffix <= List.length es)%nat.
Proof.
  revert w. induction es as [| e es IH]; intros w Hes.
  - exists []. rewrite app_nil_r. split; [reflexivity | simpl; lia].
  - simpl in Hes. apply andb_prop in Hes as [He Hes].
    unfold steps in *. cbn [fold_left].
    destruct (step_appends w e He) as [s1 [H1 L1]].
    destruct (IH (step w e) Hes) as [s2 [H2 L2]].
    exists (s1 ++ s2)%list. rewrite H2, H1, app_assoc.
    split; [reflexivity |]. rewrite length_app. simpl. lia.
Qed.

Lemma transcript_is_append_only_witness :
  let es := [ClickSend 2; ClickQuickAction 1; Settle 1 (Response 500) 3] in
  forallb chat_event es = true
  /\ exists suffix,
       messages (st (steps chattingSonata es))
       = (messages (st chattingSonata) ++ suffix)%list
       /\ (List.length suffix <= List.length es)%nat.
Proof.
  intros es. split; [reflexivity |].
  apply (transcript_is_append_only es chattingSonata). reflexivity.
Defined.

(** * A late answer in the next vehicle's chat *)

(** X18. A question is sent for one vehicle, the vehicle is changed and
    another available one is selected before the answer arrives.  The new
    chat opens with sending still blocked (loading is on, so the send
    button and the textarea are disabled), and when the answer to the old
    question arrives it is appended to the new vehicle's transcript, right
    after its welcome message. *)
Theorem late_answer_lands_in_next_chat
        (w : World) (now t0 t1 t2 status : N) (data answer v' : jsval)
        (vs : list jsval) (j : nat) :
  JS.trim (question (st w)) <> EmptyString ->
  JS.truthy (selectedVehicle (st w)) = true ->
  ok status = true ->
  JS.get data "answer" = Some answer ->
  allVehicles (st w) = JArr vs ->
  nth_error vs j = Some v' ->
  JS.includes (availableVehicles (st w)) v' = Some true ->
  let i := List.length (inflight w) in
  let w2 := steps (submitted w now) [ClickChangeVehicle; ClickVehicleCard j t0] in
  let w4 := steps w2 [Settle i (Response status) t1; Settle i (Json data) t2] in
  selectedVehicle (st w2) = v'
  /\ vehicleSelectionStep (st w2) = false
  /\ messages (st w2) = [welcomeMessage t0 v']
  /\ loading (st w2) = true
  /\ sendDisabled (st w2) = true
  /\ textareaDisabled (st w2) = true
  /\ selectedVehicle (st w4) = v'
  /\ loading (st w4) = false
  /\ exists m,
       messages (st w4) = [welcomeMessage t0 v'; m]
       /\ type m = bot
       /\ content m = answer.
Proof.
  intros Hq Hv Hok Hans Hall Hj Hinc i w2 w4.
  assert (Hsrc : exists srcs, JS.get data "sources" = Some srcs)
    by (destruct data; try discriminate; eexists; reflexivity).
  destruct Hsrc as [srcs Hsrc].
  destruct (cards_available _ _ _ _ _ Hj Hinc) as [cs [Hcs Hnth]].
  assert (Hw2 : w2 =
    {| st := {| question := EmptyString;
                selectedVehicle := v';
                availableVehicles := availableVehicles (st w);
                allVehicles := allVehicles (st w);
                vehicleSelectionStep := false;
                messages := [welcomeMessage t0 v'];
                loading := true;
                loadingStep := searchingStep |};
       inflight := inflight w ++ [AskAwaitFetch];
       requests := requests w ++ [askRequest (question (st w)) (selectedVehicle (st w))];
       console := console w |}).
  { subst w2. unfold steps. cbn [fold_left].
    rewrite (submitted_world w now Hq Hv). reset_step.
    cbn [step]. world_simpl. unfold cards. world_simpl.
    rewrite Hall, Hcs, Hnth. reflexivity. }
  subst w4 i. rewrite Hw2. clear Hw2 w2.
  do 6 (split; [reflexivity |]).
  unfold steps. cbn [fold_left].
  erewrite settle_last by reflexivity. rewrite Hok. world_simpl.
  erewrite settle_last by reflexivity. unfold ask_answer.
  rewrite Hans, Hsrc. world_simpl.
  do 2 (split; [reflexivity |]).
  exists (botMessage t2 answer srcs). repeat split.
Qed.

Lemma late_answer_lands_in_next_chat_witness :
  let w := steps loadedSonataOnly
             [ClickVehicleCard 0 3; ChangeQuestion "엔진오일 교환 방법은?"] in
  let data := JObj [("answer", JStr "오일을 교환하세요")] in
  JS.trim (question (st w)) <> EmptyString
  /\ JS.truthy (selectedVehicle (st w)) = true
  /\ ok 200 = true
  /\ JS.get data "answer" = Some (JStr "오일을 교환하세요")
  /\ allVehicles (st w) = JArr [JStr "SONATA"; JStr "TUCSON"]
  /\ nth_error [JStr "SONATA"; JStr "TUCSON"] 0 = Some (JStr "SONATA")
  /\ JS.includes (availableVehicles (st w)) (JStr "SONATA") = Some true
  /\ exists m,
       messages (st (steps (steps (submitted w 4)
                                  [ClickChangeVehicle; ClickVehicleCard 0 5])
                           [ Settle (List.length (inflight w)) (Response 200) 6;
                             Settle (List.length (inflight w)) (Json data) 7 ]))
       = [welcomeMessage 5 (JStr "SONATA"); m]
       /\ type m = bot
       /\ content m = JStr "오일을 교환하세요".
Proof.
  intros w data.
  assert (Hq : JS.trim (question (st w)) <> EmptyString)
    by (vm_compute; discriminate).
  split; [exact Hq |]. do 6 (split; [reflexivity |]).
  destruct (late_answer_lands_in_next_chat w 4 5 6 7 200 data
              (JStr "오일을 교환하세요") (JStr "SONATA")
              [JStr "SONATA"; JStr "TUCSON"] 0
              Hq eq_refl eq_refl eq_refl eq_refl eq_refl eq_refl)
    as (_ & _ & _ & _ & _ & _ & _ & _ & H).
  exact H.
Defined.
